(** * GitSync: the issue / work-item reconciliation engine of [gitsync.js]

    A shallow embedding of the class [GitSync].  Pure helpers become
    functions; the [async] methods become programs of a small interaction
    monad whose calls are the remote operations of the two services, so
    that every statement about "what is written to a service" is a
    statement about the calls a program issues.

    Conventions for JavaScript values:
    - a string is a [string] of code units; only ASCII case mapping and
      ASCII white space are modelled;
    - [undefined] and [null] of an optional property are [None];
    - a number that is an integer is a [Z];
    - a property read through an absent object raises [TypeError];
    - calls of [log.*] are left out: they return nothing and decide nothing. *)

From Stdlib Require Import ZArith List String Ascii Bool Lia DecimalString.
Import ListNotations.
Local Open Scope string_scope.
Local Open Scope Z_scope.

Set Implicit Arguments.

(** ** JavaScript string primitives *)
Module JsString.

(** [s.slice(n)] *)
Fixpoint drop (n : nat) (s : string) : string :=
  match n, s with
  | O, _ => s
  | S _, EmptyString => EmptyString
  | S k, String _ s' => drop k s'
  end.

(** [s.includes(pat)] *)
Fixpoint includes (pat s : string) : bool :=
  prefix pat s ||
  match s with
  | EmptyString => false
  | String _ s' => includes pat s'
  end.

(** [s.replace(pat, by)] for a string pattern: only the first occurrence,
    scanning from the left, is replaced.  [by] is a literal (no [$]
    pattern occurs in the replacement strings of the source). *)
Fixpoint replace (pat by_ s : string) : string :=
  if prefix pat s then by_ ++ drop (String.length pat) s
  else match s with
       | EmptyString => EmptyString
       | String c s' => String c (replace pat by_ s')
       end.

(** [s.replace(/pat/g, by)] for a literal, non-empty [pat]: every
    occurrence, left to right, without overlap.  [skip] counts the code
    units of a match that are still to be dropped. *)
Fixpoint replaceAll_from (skip : nat) (pat by_ s : string) : string :=
  match s with
  | EmptyString => EmptyString
  | String c s' =>
      match skip with
      | S k => replaceAll_from k pat by_ s'
      | O => if prefix pat s
             then by_ ++ replaceAll_from (Nat.pred (String.length pat)) pat by_ s'
             else String c (replaceAll_from O pat by_ s')
      end
  end.

Definition replaceAll : string -> string -> string -> string :=
  replaceAll_from O.

(** [s.split(sep)] for a separator of one code unit; never empty. *)
Fixpoint split (sep : ascii) (s : string) : list string :=
  match s with
  | EmptyString => [EmptyString]
  | String c s' =>
      match split sep s' with
      | [] => [String c EmptyString]
      | h :: t => if Ascii.eqb c sep then EmptyString :: h :: t
                  else String c h :: t
      end
  end.

Definition lower_ascii (c : ascii) : ascii :=
  let n := nat_of_ascii c in
  if (Nat.leb 65 n && Nat.leb n 90)%bool then ascii_of_nat (n + 32) else c.

(** [s.toLowerCase()] *)
Fixpoint toLowerCase (s : string) : string :=
  match s with
  | EmptyString => EmptyString
  | String c s' => String (lower_ascii c) (toLowerCase s')
  end.

Definition is_space (c : ascii) : bool :=
  let n := nat_of_ascii c in
  (Nat.leb 9 n && Nat.leb n 13)%bool || Nat.eqb n 32.

Fixpoint trimStart (s : string) : string :=
  match s with
  | EmptyString => EmptyString
  | String c s' => if is_space c then trimStart s' else s
  end.

Fixpoint trimEnd (s : string) : string :=
  match s with
  | EmptyString => EmptyString
  | String c s' =>
      match trimEnd s' with
      | EmptyString => if is_space c then EmptyString else String c EmptyString
      | r => String c r
      end
  end.

(** [s.trim()] *)
Definition trim (s : string) : string := trimEnd (trimStart s).

(** [!!s] *)
Definition truthy (s : string) : bool := negb (s =? "")%string.

(** A template literal [${n}] of an integer. *)
Definition of_Z (n : Z) : string := NilZero.string_of_int (Z.to_int n).

(** [${x}] of a property that may be [undefined]. *)
Definition of_opt (x : option string) : string :=
  match x with Some s => s | None => "undefined" end.

End JsString.

(** ** Data model *)

(** The time value of [new Date(x)]; [None] is [NaN] (an invalid date). *)
Definition jsdate := option Z.

(** [new Date(a) > new Date(b)]: a comparison with [NaN] is false. *)
Definition date_gt (a b : jsdate) : bool :=
  match a, b with
  | Some x, Some y => x >? y
  | _, _ => false
  end.

(** A plain object with string values, as the list of its own properties
    in the order of [Object.keys]; the keys are pairwise distinct. *)
Module Obj.
Definition t := list (string * string).

(** [o[k]] *)
Fixpoint get (k : string) (o : t) : option string :=
  match o with
  | [] => None
  | (k', v) :: o' => if (k' =? k)%string then Some v else get k o'
  end.

(** [o[k] = v] *)
Fixpoint set (k v : string) (o : t) : t :=
  match o with
  | [] => [(k, v)]
  | (k', v') :: o' =>
      if (k' =? k)%string then (k', v) :: o' else (k', v') :: set k v o'
  end.

(** [Object.keys(o)] *)
Definition keys (o : t) : list string := map fst o.
End Obj.

Module User.
Record t := { login : string; html_url : string }.
End User.

Module Label.
Record t := { name : option string }.
End Label.

Module Issue.
Record t := {
  number : Z;
  node_id : option string;
  nodeId : option string;
  title : string;
  body : option string;
  state : string;
  url : string;
  repository_url : string;
  user : User.t;
  labels : option (list Label.t);
  assignee : option User.t;
  updated_at : jsdate
}.
End Issue.

Module Comment.
Record t := { id : Z; body : string; html_url : string; user : User.t }.
End Comment.

Module Repository.
Record t := { full_name : string }.
End Repository.

(** [config.ado] *)
Module Ado.
Record t := {
  orgUrl : string;
  token : option string;
  project : string;
  wit : string;
  states : Obj.t;
  areaPath : option string;
  iterationPath : option string;
  autoCreate : bool;
  bypassRules : bool;
  assignedTo : option string;
  (** [mappings.handles]; [None] when [mappings] or [handles] is absent *)
  handles : option Obj.t
}.
End Ado.

(** The merged configuration: event payload, environment and settings. *)
Module Config.
Record t := {
  action : option string;
  issue : option Issue.t;
  label : option Label.t;
  comment : option Comment.t;
  repository : Repository.t;
  closed_at : option string;
  schedule : bool;
  manual_trigger : bool;
  GITHUB_REPOSITORY : string;
  GITHUB_REPOSITORY_OWNER : option string;
  github_token : option string;
  ado : Ado.t
}.
End Config.

(** A mirror work item, with the fields the engine reads. *)
Module WorkItem.
Record t := {
  id : Z;
  TeamProject : string;
  WorkItemType : string;
  Title : option string;
  Description : option string;
  State : option string;
  Tags : option string;
  ChangedDate : jsdate;
  (** [fields["System.AssignedTo"]?.uniqueName] *)
  AssignedTo : option string
}.
End WorkItem.

(** ** Patch documents *)

Inductive op_kind := add | replace | remove.

Inductive pvalue :=
| VStr (s : string)
| VRel (rel url : string).

Record PatchOp := { op : op_kind; path : string; value : option pvalue }.

Definition op_kind_eqb (a b : op_kind) : bool :=
  match a, b with
  | add, add | replace, replace | remove, remove => true
  | _, _ => false
  end.

Definition f_Title := "/fields/System.Title".
Definition f_Description := "/fields/System.Description".
Definition f_ReproSteps := "/fields/Microsoft.VSTS.TCM.ReproSteps".
Definition f_Tags := "/fields/System.Tags".
Definition f_History := "/fields/System.History".
Definition f_State := "/fields/System.State".
Definition f_AssignedTo := "/fields/System.AssignedTo".
Definition f_AreaPath := "/fields/System.AreaPath".
Definition f_IterationPath := "/fields/System.IterationPath".
Definition f_CreatedBy := "/fields/System.CreatedBy".
Definition f_ResolutionReason := "/fields/IntuneAgile.ResolutionReason".
Definition relations := "/relations/-".

(** What an [async] method resolves to: [null], a number (the sentinels
    [0] and [-1]) or a work item. *)
Inductive jsval :=
| Null
| Num (n : Z)
| Item (w : WorkItem.t).

(** [!!v] *)
Definition truthy (v : jsval) : bool :=
  match v with
  | Null => false
  | Num n => negb (n =? 0)
  | Item _ => true
  end.

(** ** Remote calls and programs *)

Inductive exc :=
| TypeError
| RemoteError (msg : string).

(** The two WIQL queries of the source, by their parameters: the one of
    [getWorkItem] and the one of [updateIssues]. *)
Inductive Wiql :=
| ByIssue (wit issue_tag repo_tag : string)
| RecentOfRepo (wit repo_tag : string).

Definition wiql_select : string :=
  "SELECT [System.Id], [System.Description], [System.Title], [System.AssignedTo], [System.State], [System.Tags] FROM workitems WHERE [System.TeamProject] = @project ".

(** The query text the source sends. *)
Definition wiql_text (q : Wiql) : string :=
  match q with
  | ByIssue wit i r =>
      wiql_select
      ++ "AND [System.WorkItemType] = '" ++ wit ++ "'"
      ++ "AND [System.Tags] CONTAINS '" ++ i ++ "' "
      ++ "AND [System.Tags] CONTAINS '" ++ r ++ "'"
  | RecentOfRepo wit r =>
      wiql_select
      ++ "AND [System.WorkItemType] = '" ++ wit ++ "'"
      ++ "AND [System.Tags] CONTAINS '" ++ r ++ "' "
      ++ "AND [System.ChangedDate] > @Today - 1"
  end.

(** A call and the type of its answer; [inl] is a rejection. *)
Inductive call : Type -> Type :=
| getWorkItemTrackingApi (orgUrl : string) (token : option string)
    : call (exc + unit)
| queryByWiql (wiql : Wiql) (project : string)
    : call (exc + option (list Z))
| client_getWorkItem (id : Z) (fields : list string) (expand : option Z)
    : call (exc + option WorkItem.t)
| client_createWorkItem (patchDoc : list PatchOp) (project wit : string)
                        (bypassRules : bool)
    : call (exc + option WorkItem.t)
| client_updateWorkItem (patchDoc : list PatchOp) (id : option Z)
                        (project : string) (bypassRules : bool)
    : call (exc + option WorkItem.t)
| setFailed : call unit
| issues_get (owner : option string) (repo issue_number : string)
    : call (exc + Issue.t)
| issues_update (owner : option string) (repo issue_number : string)
                (title : option string) (body : string)
                (state : option string) (assignees : list string)
    : call (exc + Issue.t).

Inductive Prog (A : Type) : Type :=
| Ret (a : A)
| Throw (e : exc)
| Call (X : Type) (c : call X) (k : X -> Prog A).

Arguments Ret {A} a.
Arguments Throw {A} e.
Arguments Call {A X} c k.

Fixpoint bind {A B : Type} (p : Prog A) (f : A -> Prog B) : Prog B :=
  match p with
  | Ret a => f a
  | Throw e => Throw e
  | Call c k => Call c (fun x => bind (k x) f)
  end.

Notation "x <- p ;; q" := (bind p (fun x => q))
  (at level 61, p at next level, right associativity).
Notation "p ;;; q" := (bind p (fun _ => q))
  (at level 61, right associativity).

(** [try { p } catch (exc) { h exc }] *)
Fixpoint try_catch {A : Type} (p : Prog A) (h : exc -> Prog A) : Prog A :=
  match p with
  | Ret a => Ret a
  | Throw e => h e
  | Call c k => Call c (fun x => try_catch (k x) h)
  end.

(** [await c]: a rejection is thrown. *)
Definition await {X : Type} (c : call (exc + X)) : Prog X :=
  Call c (fun r => match r with inl e => Throw e | inr x => Ret x end).

Definition perform {X : Type} (c : call X) : Prog X := Call c Ret.

(** Reading a property of an object that may be absent. *)
Definition need {A : Type} (o : option A) : Prog A :=
  match o with
  | Some a => Ret a
  | None => Throw TypeError
  end.

(** ** The engine *)

Definition dq : string := String (ascii_of_nat 34) EmptyString.

(** The markup [<a href="h" target="t">text</a>] of the history entries. *)
Definition a_tag (href target text : string) : string :=
  "<a href=" ++ dq ++ href ++ dq ++ " target=" ++ dq ++ target ++ dq ++ ">"
  ++ text ++ "</a>".

Definition cleanUrl (url : string) : string :=
  JsString.replace "api.github.com/repos/" "github.com/" url.

Definition createLabels (seed : string) (labelsObj : option (list Label.t))
  : string :=
  match labelsObj with
  | None => seed
  | Some ls =>
      fold_left
        (fun labels label =>
           labels ++ "GitHub Label: " ++ JsString.of_opt (Label.name label) ++ ";")
        ls seed
  end.

(** [!!x] of an optional string *)
Definition truthy_opt (x : option string) : bool :=
  match x with
  | Some s => JsString.truthy s
  | None => false
  end.

Definition getAssignee (config : Config.t) (useDefault : bool)
  : option string :=
  let assignee :=
    match Config.issue config with
    | Some i =>
        match Issue.assignee i, Ado.handles (Config.ado config) with
        | Some a, Some handles =>
            if truthy_opt (Obj.get (User.login a) handles)
            then Obj.get (User.login a) handles
            else None
        | _, _ => None
        end
    | None => None
    end in
  if truthy_opt assignee then assignee
  else if (useDefault && truthy_opt (Ado.assignedTo (Config.ado config)))%bool
       then Ado.assignedTo (Config.ado config)
       else assignee.

(** [labels?.some(x => x.name?.toLowerCase() === "noado")] *)
Definition has_noado (labels : option (list Label.t)) : bool :=
  match labels with
  | None => false
  | Some ls =>
      existsb
        (fun x => match Label.name x with
                  | Some n => (JsString.toLowerCase n =? "noado")%string
                  | None => false
                  end) ls
  end.

Definition objectFlip (obj : Obj.t) : Obj.t :=
  fold_left
    (fun ret key => Obj.set (JsString.of_opt (Obj.get key obj)) key ret)
    (Obj.keys obj) [].

(** [Object.keys(states).find((k) => states[k] === value)], the reverse
    state lookup of [updateIssue]. *)
Definition deriveStateKey (states : Obj.t) (value : option string)
  : option string :=
  find
    (fun k => match Obj.get k states, value with
              | Some a, Some b => (a =? b)%string
              | None, None => true
              | _, _ => false
              end)
    (Obj.keys states).

(** The part of a history entry shared by all events but the creation:
    [GitHub issue #n: <a ...>title</a> in <a ...>repo</a>]. *)
Definition history_head (config : Config.t) (issue : Issue.t) (link : string)
  : string :=
  "GitHub issue #" ++ JsString.of_Z (Issue.number issue) ++ ": "
  ++ a_tag (cleanUrl (Issue.url issue)) "_new" (Issue.title issue)
  ++ link
  ++ a_tag (cleanUrl (Issue.repository_url issue)) "_blank"
       (Repository.full_name (Config.repository config)).

Definition by_user (u : User.t) : string :=
  " by " ++ a_tag (User.html_url u) "_blank" (User.login u).

Definition add_str (path v : string) : PatchOp :=
  {| op := add; path := path; value := Some (VStr v) |}.

Definition add_opt (path : string) (v : option string) : PatchOp :=
  {| op := add; path := path; value := option_map VStr v |}.

Definition replace_str (path v : string) : PatchOp :=
  {| op := replace; path := path; value := Some (VStr v) |}.

Definition remove_op (path : string) : PatchOp :=
  {| op := remove; path := path; value := None |}.

Definition v_minus_one : jsval := Num (-1).

Section Engine.

(** The text converter ([showdown]) is an external collaborator. *)
Variable makeHtml : string -> string.
Variable makeMarkdown : string -> string.

(** [converter.makeHtml(body)] followed by [!!html ? html : ""]; the
    converter returns an absent body as it is. *)
Definition html_of (body : option string) : string :=
  match body with
  | Some b => if JsString.truthy (makeHtml b) then makeHtml b else ""
  | None => ""
  end.

Definition getConnection (config : Config.t) : call (exc + unit) :=
  getWorkItemTrackingApi (Ado.orgUrl (Config.ado config))
                         (Ado.token (Config.ado config)).

(** *** Patch documents of the lifecycle events *)

Definition createWorkItem_patchDoc (config : Config.t) (issue : Issue.t)
  : list PatchOp :=
  let ado := Config.ado config in
  [ add_str f_Title (Issue.title issue);
    add_str f_Description (html_of (Issue.body issue));
    add_str f_ReproSteps (html_of (Issue.body issue));
    {| op := add; path := relations;
       value := Some (VRel "System.LinkTypes.Hierarchy-Reverse"
         "https://dev.azure.com/msazure/one/_apis/wit/workItems/24493735") |};
    add_str f_Tags
      (createLabels
         ("GitHub Issue #" ++ JsString.of_Z (Issue.number issue)
          ++ ";GitHub Repo: "
          ++ Repository.full_name (Config.repository config) ++ ";")
         (Issue.labels issue));
    {| op := add; path := relations;
       value := Some (VRel "Hyperlink" (cleanUrl (Issue.url issue))) |};
    add_str f_History
      (history_head config issue " created in "
       ++ by_user (Issue.user issue)) ]
  ++ (if truthy_opt (getAssignee config true)
      then [add_opt f_AssignedTo (getAssignee config true)] else [])
  ++ (if truthy_opt (Ado.areaPath ado)
      then [add_opt f_AreaPath (Ado.areaPath ado)] else [])
  ++ (if truthy_opt (Ado.iterationPath ado)
      then [add_opt f_IterationPath (Ado.iterationPath ado)] else [])
  ++ (if Ado.bypassRules ado
      then [add_str f_CreatedBy (User.login (Issue.user issue))] else []).

(** [config.closed_at != ""] *)
Definition closed_at_given (config : Config.t) : bool :=
  match Config.closed_at config with
  | Some s => negb (s =? "")%string
  | None => true
  end.

Definition closeWorkItem_patchDoc (config : Config.t) (issue : Issue.t)
  : list PatchOp :=
  [ add_opt f_State (Obj.get "closed" (Ado.states (Config.ado config))) ]
  ++ (if closed_at_given config
      then [ add_str f_History
               (history_head config issue " in " ++ " closed"
                ++ by_user (Issue.user issue)) ]
      else []).

Definition deleteWorkItem_patchDoc (config : Config.t) (issue : Issue.t)
  : list PatchOp :=
  [ add_opt f_State (Obj.get "deleted" (Ado.states (Config.ado config)));
    add_str f_ResolutionReason "Won't Fix";
    add_str f_History
      (history_head config issue " in " ++ " removed"
       ++ by_user (Issue.user issue)) ].

Definition reopenWorkItem_patchDoc (config : Config.t) (issue : Issue.t)
  : list PatchOp :=
  [ add_opt f_State (Obj.get "reopened" (Ado.states (Config.ado config)));
    add_str f_History
      (history_head config issue " in " ++ " reopened"
       ++ by_user (Issue.user issue)) ].

Definition editWorkItem_patchDoc (config : Config.t) (issue : Issue.t)
  : list PatchOp :=
  [ replace_str f_Title (Issue.title issue);
    replace_str f_Description (html_of (Issue.body issue));
    replace_str f_ReproSteps (html_of (Issue.body issue));
    add_str f_History
      (history_head config issue " in " ++ " edited"
       ++ by_user (Issue.user issue)) ].

Definition labelWorkItem_patchDoc (config : Config.t) (issue : Issue.t)
                                  (label : Label.t) : list PatchOp :=
  [ add_str f_Tags (createLabels "" (Some [label]));
    add_str f_History
      (history_head config issue " in "
       ++ " addition of label '" ++ JsString.of_opt (Label.name label) ++ "'"
       ++ by_user (Issue.user issue)) ].

(** [tags] is [workItem.fields["System.Tags"]] of the located item. *)
Definition unlabelWorkItem_patchDoc (config : Config.t) (issue : Issue.t)
                                    (label : Label.t) (tags : string)
  : list PatchOp :=
  [ replace_str f_Tags
      (JsString.replace (createLabels "" (Some [label])) "" tags);
    add_str f_History
      (history_head config issue " in "
       ++ " removal of label '" ++ JsString.of_opt (Label.name label) ++ "'"
       ++ by_user (Issue.user issue)) ].

Definition assignWorkItem_patchDoc (config : Config.t) (issue : Issue.t)
  : list PatchOp :=
  (if truthy_opt (getAssignee config false)
   then [add_opt f_AssignedTo (getAssignee config false)]
   else [remove_op f_AssignedTo])
  ++ [ add_str f_History
         (history_head config issue " in "
          ++ " assigned to '"
          ++ JsString.of_opt (option_map User.login (Issue.assignee issue))
          ++ "'" ++ by_user (Issue.user issue)) ].

Definition unassignWorkItem_patchDoc (config : Config.t) (issue : Issue.t)
  : list PatchOp :=
  [ remove_op f_AssignedTo;
    add_str f_History
      (history_head config issue " in "
       ++ " removal of assignment to '"
       ++ JsString.of_opt (option_map User.login (Issue.assignee issue))
       ++ "'" ++ by_user (Issue.user issue)) ].

Definition addComment_patchDoc (config : Config.t) (issue : Issue.t)
                               (comment : Comment.t) : list PatchOp :=
  [ add_str f_History
      (history_head config issue " in " ++ " comment added"
       ++ by_user (Comment.user comment) ++ "<br />"
       ++ "Comment #"
       ++ a_tag (Comment.html_url comment) "_blank"
            (JsString.of_Z (Comment.id comment))
       ++ ":<br /><br />" ++ makeHtml (Comment.body comment)) ].

(** *** Locating the mirror work item *)

Definition of_nullable (w : option WorkItem.t) : jsval :=
  match w with
  | Some w => Item w
  | None => Null
  end.

(** The [try] block around the query: [inl] is the value of an early
    [return], [inr] the list [result.workItems] the method goes on with. *)
Definition query_workItems (q : Wiql) (project : string)
  : Prog (jsval + list Z) :=
  try_catch
    (result <- await (queryByWiql q project) ;;
     match result with
     | None => perform setFailed ;;; Ret (inl v_minus_one)
     | Some workItems => Ret (inr workItems)
     end)
    (fun _ => perform setFailed ;;; Ret (inl v_minus_one)).

Definition getWorkItem (config : Config.t) (skipQuery : bool) : Prog jsval :=
  if skipQuery then Ret Null
  else
    Call (getConnection config) (fun client =>
      match client with
      | inl _ => perform setFailed ;;; Ret v_minus_one
      | inr _ =>
          issue <- need (Config.issue config) ;;
          r <- query_workItems
                 (ByIssue (Ado.wit (Config.ado config))
                    ("GitHub Issue #" ++ JsString.of_Z (Issue.number issue))
                    ("GitHub Repo: "
                     ++ Repository.full_name (Config.repository config)))
                 (Ado.project (Config.ado config)) ;;
          match r with
          | inl v => Ret v
          | inr [] => Ret Null
          | inr (id :: _) =>
              try_catch
                (w <- await (client_getWorkItem id [] (Some 4)) ;;
                 Ret (of_nullable w))
                (fun _ => perform setFailed ;;; Ret v_minus_one)
          end
      end).

(** *** Creating and updating *)

Definition createWorkItem (config : Config.t) (skipQuery : bool)
  : Prog jsval :=
  workItem <- getWorkItem config skipQuery ;;
  if truthy workItem then Ret (Num 0)
  else
    issue <- need (Config.issue config) ;;
    let patchDoc := createWorkItem_patchDoc config issue in
    _ <- await (getConnection config) ;;
    try_catch
      (result <- await (client_createWorkItem patchDoc
                          (Ado.project (Config.ado config))
                          (Ado.wit (Config.ado config))
                          (Ado.bypassRules (Config.ado config))) ;;
       match result with
       | None => perform setFailed ;;; Ret v_minus_one
       | Some w => Ret (Item w)
       end)
      (fun _ => perform setFailed ;;; Ret v_minus_one).

(** [workItem.id]: [undefined] on a number, an error on [null]. *)
Definition id_of (workItem : jsval) : Prog (option Z) :=
  match workItem with
  | Null => Throw TypeError
  | Num _ => Ret None
  | Item w => Ret (Some (WorkItem.id w))
  end.

(** The tail of [updateWorkItem], once [workItem] is settled. *)
Definition submit_update (config : Config.t) (patchDoc : list PatchOp)
                         (workItem : jsval) : Prog jsval :=
  _ <- await (getConnection config) ;;
  try_catch
    (id <- id_of workItem ;;
     result <- await (client_updateWorkItem patchDoc id
                        (Ado.project (Config.ado config))
                        (Ado.bypassRules (Config.ado config))) ;;
     w <- need result ;;
     Ret (Item w))
    (fun _ => perform setFailed ;;; Ret v_minus_one).

Definition updateWorkItem (config : Config.t) (patchDoc : list PatchOp)
  : Prog jsval :=
  workItem <- getWorkItem config false ;;
  if negb (truthy workItem) then
    if Ado.autoCreate (Config.ado config) then
      created <- createWorkItem config true ;;
      submit_update config patchDoc created
    else Ret (Num 0)
  else submit_update config patchDoc workItem.

(** *** The handlers of the lifecycle events *)

Definition closeWorkItem (config : Config.t) : Prog jsval :=
  issue <- need (Config.issue config) ;;
  updateWorkItem config (closeWorkItem_patchDoc config issue).

Definition deleteWorkItem (config : Config.t) : Prog jsval :=
  issue <- need (Config.issue config) ;;
  updateWorkItem config (deleteWorkItem_patchDoc config issue).

Definition reopenWorkItem (config : Config.t) : Prog jsval :=
  issue <- need (Config.issue config) ;;
  updateWorkItem config (reopenWorkItem_patchDoc config issue).

Definition editWorkItem (config : Config.t) : Prog jsval :=
  issue <- need (Config.issue config) ;;
  updateWorkItem config (editWorkItem_patchDoc config issue).

Definition labelWorkItem (config : Config.t) : Prog jsval :=
  label <- need (Config.label config) ;;
  issue <- need (Config.issue config) ;;
  updateWorkItem config (labelWorkItem_patchDoc config issue label).

(** [workItem.fields["System.Tags"]] as the receiver of [.replace]. *)
Definition tags_of (workItem : jsval) : Prog string :=
  match workItem with
  | Item w => need (WorkItem.Tags w)
  | _ => Throw TypeError
  end.

Definition unlabelWorkItem (config : Config.t) : Prog jsval :=
  workItem <- getWorkItem config false ;;
  if negb (truthy workItem) then Ret (Num 0)
  else
    tags <- tags_of workItem ;;
    label <- need (Config.label config) ;;
    issue <- need (Config.issue config) ;;
    updateWorkItem config (unlabelWorkItem_patchDoc config issue label tags).

Definition assignWorkItem (config : Config.t) : Prog jsval :=
  issue <- need (Config.issue config) ;;
  updateWorkItem config (assignWorkItem_patchDoc config issue).

Definition unassignWorkItem (config : Config.t) : Prog jsval :=
  issue <- need (Config.issue config) ;;
  updateWorkItem config (unassignWorkItem_patchDoc config issue).

Definition addComment (config : Config.t) : Prog jsval :=
  comment <- need (Config.comment config) ;;
  issue <- need (Config.issue config) ;;
  updateWorkItem config (addComment_patchDoc config issue comment).

(** *** Reverse reconciliation *)

Definition opt_eqb (a b : option string) : bool :=
  match a, b with
  | Some x, Some y => (x =? y)%string
  | None, None => true
  | _, _ => false
  end.

(** [tags.split(";")?.find((x) => x.includes("GitHub Issue #"))?.split("#")[1]] *)
Definition issue_number_of (tags : string) : option string :=
  match find (JsString.includes "GitHub Issue #") (JsString.split ";" tags) with
  | Some x => nth_error (JsString.split "#" x) 1
  | None => None
  end.

(** The candidate values computed from the mirror work item. *)
Definition candidate_body (wiObj : WorkItem.t) : string :=
  JsString.trim
    (JsString.replaceAll "<br>" ""
       (makeMarkdown (match WorkItem.Description wiObj with
                      | Some d => d
                      | None => ""
                      end))).

Definition candidate_state (config : Config.t) (wiObj : WorkItem.t)
  : option string :=
  deriveStateKey (Ado.states (Config.ado config)) (WorkItem.State wiObj).

Definition candidate_assignee (config : Config.t) (wiObj : WorkItem.t)
  : option string :=
  match WorkItem.AssignedTo wiObj with
  | Some assignedTo =>
      if JsString.truthy assignedTo
      then Obj.get (JsString.toLowerCase assignedTo)
             (objectFlip (match Ado.handles (Config.ado config) with
                          | Some h => h
                          | None => []
                          end))
      else None
  | None => None
  end.

(** The test that guards the update call. *)
Definition differs (config : Config.t) (wiObj : WorkItem.t) (issue : Issue.t)
  : bool :=
  negb (opt_eqb (WorkItem.Title wiObj) (Some (Issue.title issue)))
  || negb (opt_eqb (Some (candidate_body wiObj)) (Issue.body issue))
  || negb (opt_eqb (candidate_state config wiObj) (Some (Issue.state issue)))
  || negb (opt_eqb
             (option_map JsString.toLowerCase (candidate_assignee config wiObj))
             (option_map JsString.toLowerCase
                (option_map User.login (Issue.assignee issue)))).

Definition fresher (wiObj : WorkItem.t) (issue : Issue.t) : bool :=
  date_gt (WorkItem.ChangedDate wiObj) (Issue.updated_at issue)
  && negb (has_noado (Issue.labels issue)).

Definition wi_fields : list string :=
  [ "System.Title"; "System.Description"; "System.State";
    "System.ChangedDate"; "System.AssignedTo"; "System.Tags" ].

Definition updateIssue (config : Config.t) (workItem_id : Z)
  : Prog (option Issue.t) :=
  (* github.getOctokit refuses an absent token *)
  (if truthy_opt (Config.github_token config) then Ret tt
   else Throw (RemoteError "Parameter token or opts.auth is required")) ;;;
  let owner := Config.GITHUB_REPOSITORY_OWNER config in
  let repo := JsString.replace (JsString.of_opt owner ++ "/") ""
                (Config.GITHUB_REPOSITORY config) in
  fetched <- await (client_getWorkItem workItem_id wi_fields None) ;;
  wiObj <- need fetched ;;
  tags <- need (WorkItem.Tags wiObj) ;;
  match issue_number_of tags with
  | None => Ret None
  | Some issue_number =>
      if negb (JsString.truthy issue_number) then Ret None
      else
        issue <- await (issues_get owner repo issue_number) ;;
        if fresher wiObj issue then
          if differs config wiObj issue then
            result <- await
              (issues_update owner repo issue_number
                 (WorkItem.Title wiObj)
                 (candidate_body wiObj)
                 (candidate_state config wiObj)
                 (match candidate_assignee config wiObj with
                  | Some gh => if JsString.truthy gh then [gh] else []
                  | None => []
                  end)) ;;
            Ret (Some result)
          else Ret None
        else Ret None
  end.

(** [workItems.forEach(async (workItem) => { await f(workItem) })]: the
    callbacks are not awaited and a rejection of one reaches no other.
    Their interleaving is not modelled: the items are taken in order. *)
Fixpoint forEach_detached {A B : Type} (f : A -> Prog B) (l : list A)
  : Prog unit :=
  match l with
  | [] => Ret tt
  | x :: l' =>
      try_catch (f x ;;; Ret tt) (fun _ => Ret tt) ;;;
      forEach_detached f l'
  end.

Definition updateIssues (config : Config.t) : Prog jsval :=
  Call (getConnection config) (fun client =>
    match client with
    | inl _ => perform setFailed ;;; Ret v_minus_one
    | inr _ =>
        r <- query_workItems
               (RecentOfRepo (Ado.wit (Config.ado config))
                  ("GitHub Repo: " ++ Config.GITHUB_REPOSITORY config))
               (Ado.project (Config.ado config)) ;;
        match r with
        | inl v => Ret v
        | inr workItems =>
            forEach_detached (updateIssue config) workItems ;;; Ret Null
        end
    end).

(** *** Dispatch *)

Definition is_action (config : Config.t) (a : string) : bool :=
  opt_eqb (Config.action config) (Some a).

Definition performWork (config : Config.t) : Prog jsval :=
  if has_noado (match Config.issue config with
                | Some i => Issue.labels i
                | None => None
                end)
  then deleteWorkItem config
  else
    workItem <-
      (if is_action config "opened" then createWorkItem config false
       else if is_action config "closed" then closeWorkItem config
       else if is_action config "deleted" then deleteWorkItem config
       else if is_action config "reopened" then reopenWorkItem config
       else if is_action config "edited" then editWorkItem config
       else if is_action config "labeled" then labelWorkItem config
       else if is_action config "unlabeled" then unlabelWorkItem config
       else if is_action config "assigned" then assignWorkItem config
       else if is_action config "unassigned" then unassignWorkItem config
       else if is_action config "created" then addComment config
       else Ret Null) ;;
    (if (Config.schedule config || Config.manual_trigger config)%bool
     then updateIssues config ;;; Ret tt
     else Ret tt) ;;;
    Ret workItem.

Definition starts_with_PR (x : option string) : bool :=
  match x with
  | Some s => prefix "PR_" s
  | None => false
  end.

Definition run (config : Config.t) : Prog unit :=
  try_catch
    (if (starts_with_PR (match Config.issue config with
                         | Some i => Issue.node_id i
                         | None => None
                         end)
         || starts_with_PR (match Config.issue config with
                            | Some i => Issue.nodeId i
                            | None => None
                            end))%bool
     then Ret tt
     else performWork config ;;; Ret tt)
    (fun _ => Ret tt).

End Engine.

(** ** Running a program against the services *)

Inductive outcome (A : Type) : Type :=
| Resolved (a : A)
| Rejected (e : exc).

Arguments Resolved {A} a.
Arguments Rejected {A} e.

(** A call that was issued, with the answer it got. *)
Inductive event : Type :=
| Ev (X : Type) (c : call X) (answer : X).

(** The services: any function from a call and a state to an answer. *)
Definition Handler (S : Type) : Type := forall X : Type, call X -> S -> X * S.

Record Run (S A : Type) : Type := {
  out : outcome A;
  final : S;
  trace : list event
}.

Fixpoint exec {S A : Type} (h : Handler S) (p : Prog A) (s : S) : Run S A :=
  match p with
  | Ret a => {| out := Resolved a; final := s; trace := [] |}
  | Throw e => {| out := Rejected e; final := s; trace := [] |}
  | Call c k =>
      let r := exec h (k (fst (h _ c s))) (snd (h _ c s)) in
      {| out := out r; final := final r;
         trace := Ev c (fst (h _ c s)) :: trace r |}
  end.

(** Every call a program can issue, whatever the answers, satisfies [P]. *)
Fixpoint AllCalls (P : forall X : Type, call X -> Prop) (A : Type)
                  (p : Prog A) : Prop :=
  match p with
  | Ret _ => True
  | Throw _ => True
  | Call c k => P _ c /\ forall x, AllCalls P (k x)
  end.

Definition on_call (P : forall X : Type, call X -> Prop) (e : event) : Prop :=
  match e with
  | Ev c _ => P _ c
  end.

Definition is_create (e : event) : bool :=
  match e with
  | Ev (client_createWorkItem _ _ _ _) _ => true
  | Ev _ _ => false
  end.

Definition is_update (e : event) : bool :=
  match e with
  | Ev (client_updateWorkItem _ _ _ _) _ => true
  | Ev _ _ => false
  end.

(** A write to the mirror service. *)
Definition is_mirror_write (e : event) : bool := is_create e || is_update e.

(** A write to the origin issue. *)
Definition is_origin_update (e : event) : bool :=
  match e with
  | Ev (issues_update _ _ _ _ _ _ _) _ => true
  | Ev _ _ => false
  end.

Definition is_setFailed (e : event) : bool :=
  match e with
  | Ev setFailed _ => true
  | Ev _ _ => false
  end.

(** An update call whose work-item id is [undefined]. *)
Definition is_update_without_id (e : event) : bool :=
  match e with
  | Ev (client_updateWorkItem _ None _ _) _ => true
  | Ev _ _ => false
  end.

(** ** A reference model of the two services

    Modelled from the spec: the remote services are not part of the
    source.  Section 6 of the specification gives their operations; the
    tag query matches an item whose tag field holds each required tag as
    a literal substring (section 8, tag round-trip), and an [add] on the
    tag field appends to it (section 4.3, label). *)
Module World.

Record t := {
  items : list WorkItem.t;
  issues : list Issue.t;
  now : Z;
  yesterday : Z;
  failed : bool;
  (** faults of the mirror service *)
  connection_down : bool;
  query_down : bool;
  fetch_down : bool
}.

Definition with_items (w : t) (l : list WorkItem.t) : t :=
  {| items := l; issues := issues w; now := now w; yesterday := yesterday w;
     failed := failed w; connection_down := connection_down w;
     query_down := query_down w; fetch_down := fetch_down w |}.

Definition with_issues (w : t) (l : list Issue.t) : t :=
  {| items := items w; issues := l; now := now w; yesterday := yesterday w;
     failed := failed w; connection_down := connection_down w;
     query_down := query_down w; fetch_down := fetch_down w |}.

Definition with_failed (w : t) : t :=
  {| items := items w; issues := issues w; now := now w;
     yesterday := yesterday w;
     failed := true; connection_down := connection_down w;
     query_down := query_down w; fetch_down := fetch_down w |}.

Definition has_tag (tag : string) (w : WorkItem.t) : bool :=
  match WorkItem.Tags w with
  | Some tags => JsString.includes tag tags
  | None => false
  end.

Definition matches (q : Wiql) (project : string) (w : WorkItem.t) : bool :=
  (WorkItem.TeamProject w =? project)%string &&
  match q with
  | ByIssue wit i r =>
      (WorkItem.WorkItemType w =? wit)%string && has_tag i w && has_tag r w
  | RecentOfRepo wit r =>
      (WorkItem.WorkItemType w =? wit)%string && has_tag r w
  end.

Definition recent (y : Z) (q : Wiql) (w : WorkItem.t) : bool :=
  match q with
  | ByIssue _ _ _ => true
  | RecentOfRepo _ _ => date_gt (WorkItem.ChangedDate w) (Some y)
  end.

Definition str_of (v : option pvalue) : option string :=
  match v with
  | Some (VStr s) => Some s
  | _ => None
  end.

(** One patch operation on the fields the model keeps. *)
Definition apply_op (o : PatchOp) (w : WorkItem.t) : WorkItem.t :=
  let v := match op o with remove => None | _ => str_of (value o) end in
  let on p := (path o =? p)%string in
  {| WorkItem.id := WorkItem.id w;
     WorkItem.TeamProject := WorkItem.TeamProject w;
     WorkItem.WorkItemType := WorkItem.WorkItemType w;
     WorkItem.Title := if on f_Title then v else WorkItem.Title w;
     WorkItem.Description :=
       if on f_Description then v else WorkItem.Description w;
     WorkItem.State := if on f_State then v else WorkItem.State w;
     WorkItem.Tags :=
       if on f_Tags then
         match op o, WorkItem.Tags w, v with
         | add, Some old, Some new => Some (old ++ new)
         | _, _, _ => v
         end
       else WorkItem.Tags w;
     WorkItem.ChangedDate := WorkItem.ChangedDate w;
     WorkItem.AssignedTo :=
       if on f_AssignedTo then v else WorkItem.AssignedTo w |}.

Definition apply_patch (patchDoc : list PatchOp) (w : WorkItem.t)
  : WorkItem.t :=
  fold_left (fun w o => apply_op o w) patchDoc w.

Definition touch (t : Z) (w : WorkItem.t) : WorkItem.t :=
  {| WorkItem.id := WorkItem.id w;
     WorkItem.TeamProject := WorkItem.TeamProject w;
     WorkItem.WorkItemType := WorkItem.WorkItemType w;
     WorkItem.Title := WorkItem.Title w;
     WorkItem.Description := WorkItem.Description w;
     WorkItem.State := WorkItem.State w;
     WorkItem.Tags := WorkItem.Tags w;
     WorkItem.ChangedDate := Some t;
     WorkItem.AssignedTo := WorkItem.AssignedTo w |}.

Definition blank (id : Z) (project wit : string) : WorkItem.t :=
  {| WorkItem.id := id;
     WorkItem.TeamProject := project;
     WorkItem.WorkItemType := wit;
     WorkItem.Title := None;
     WorkItem.Description := None;
     WorkItem.State := None;
     WorkItem.Tags := None;
     WorkItem.ChangedDate := None;
     WorkItem.AssignedTo := None |}.

Definition fresh_id (l : list WorkItem.t) : Z :=
  1 + fold_right (fun w m => Z.max (WorkItem.id w) m) 0 l.

Definition lookup (id : Z) (l : list WorkItem.t) : option WorkItem.t :=
  find (fun w => WorkItem.id w =? id) l.

Fixpoint store (w' : WorkItem.t) (l : list WorkItem.t) : list WorkItem.t :=
  match l with
  | [] => []
  | w :: l' => if WorkItem.id w =? WorkItem.id w' then w' :: l'
               else w :: store w' l'
  end.

Definition revise (title : option string) (body : string)
                  (state : option string) (assignees : list string)
                  (t : Z) (i : Issue.t) : Issue.t :=
  {| Issue.number := Issue.number i;
     Issue.node_id := Issue.node_id i;
     Issue.nodeId := Issue.nodeId i;
     Issue.title := match title with Some x => x | None => Issue.title i end;
     Issue.body := Some body;
     Issue.state := match state with Some x => x | None => Issue.state i end;
     Issue.url := Issue.url i;
     Issue.repository_url := Issue.repository_url i;
     Issue.user := Issue.user i;
     Issue.labels := Issue.labels i;
     Issue.assignee :=
       match assignees with
       | a :: _ => Some {| User.login := a; User.html_url := "" |}
       | [] => None
       end;
     Issue.updated_at := Some t |}.

Definition is_issue (n : string) (i : Issue.t) : bool :=
  (JsString.of_Z (Issue.number i) =? n)%string.

Definition down : exc := RemoteError "service unavailable".
Definition not_found : exc := RemoteError "not found".

Definition handle : Handler t :=
  fun X c =>
    match c in call X return t -> X * t with
    | getWorkItemTrackingApi _ _ => fun w =>
        (if connection_down w then inl down else inr tt, w)
    | queryByWiql q project => fun w =>
        (if query_down w then inl down
         else inr (Some (map WorkItem.id
                           (filter (fun x => matches q project x
                                             && recent (yesterday w) q x)
                                   (items w)))), w)
    | client_getWorkItem id _ _ => fun w =>
        (if fetch_down w then inl down else inr (lookup id (items w)), w)
    | client_createWorkItem patchDoc project wit _ => fun w =>
        let x := touch (now w)
                   (apply_patch patchDoc
                      (blank (fresh_id (items w)) project wit)) in
        (inr (Some x), with_items w (items w ++ [x]))
    | client_updateWorkItem patchDoc id _ _ => fun w =>
        match id with
        | None => (inl not_found, w)
        | Some id =>
            match lookup id (items w) with
            | None => (inl not_found, w)
            | Some x =>
                let x' := touch (now w) (apply_patch patchDoc x) in
                (inr (Some x'), with_items w (store x' (items w)))
            end
        end
    | setFailed => fun w => (tt, with_failed w)
    | issues_get _ _ n => fun w =>
        (match find (is_issue n) (issues w) with
         | Some i => inr i
         | None => inl not_found
         end, w)
    | issues_update _ _ n title body state assignees => fun w =>
        match find (is_issue n) (issues w) with
        | None => (inl not_found, w)
        | Some i =>
            let i' := revise title body state assignees (now w) i in
            (inr i',
             with_issues w
               (map (fun j => if is_issue n j then i' else j) (issues w)))
        end
    end.

(** The counterparts of the issue of [config]: the items its locator
    query selects. *)
Definition counterparts (config : Config.t) (issue : Issue.t) (w : t)
  : list WorkItem.t :=
  filter
    (matches
       (ByIssue (Ado.wit (Config.ado config))
          ("GitHub Issue #" ++ JsString.of_Z (Issue.number issue))
          ("GitHub Repo: " ++ Repository.full_name (Config.repository config)))
       (Ado.project (Config.ado config)))
    (items w).

End World.

(** ** Vocabulary of the statements *)

(** A create call carries a patch document satisfying [Q]. *)
Definition creates_with (Q : list PatchOp -> Prop) (X : Type) (c : call X)
  : Prop :=
  match c with
  | client_createWorkItem patchDoc _ _ _ => Q patchDoc
  | _ => True
  end.

(** No write to the mirror service. *)
Definition reads_only (X : Type) (c : call X) : Prop :=
  match c with
  | client_createWorkItem _ _ _ _ => False
  | client_updateWorkItem _ _ _ _ => False
  | _ => True
  end.

(** An update call carries a patch document satisfying [Q]. *)
Definition updates_with (Q : list PatchOp -> Prop) (X : Type) (c : call X)
  : Prop :=
  match c with
  | client_updateWorkItem patchDoc _ _ _ => Q patchDoc
  | _ => True
  end.

(** The parent link of every created work item. *)
Definition parent_link : PatchOp :=
  {| op := add; path := relations;
     value := Some (VRel "System.LinkTypes.Hierarchy-Reverse"
       "https://dev.azure.com/msazure/one/_apis/wit/workItems/24493735") |}.

(** ** The lifecycle events *)

Inductive lifecycle :=
| Create | Close | Reopen | Delete | Edit
| Labeled | Unlabeled | Assign | Unassign | Commented.

(** The value of [config.action] that [performWork] dispatches on. *)
Definition action_of (e : lifecycle) : string :=
  match e with
  | Create => "opened"
  | Close => "closed"
  | Reopen => "reopened"
  | Delete => "deleted"
  | Edit => "edited"
  | Labeled => "labeled"
  | Unlabeled => "unlabeled"
  | Assign => "assigned"
  | Unassign => "unassigned"
  | Commented => "created"
  end.

Definition handler_of (makeHtml : string -> string) (e : lifecycle)
                      (config : Config.t) : Prog jsval :=
  match e with
  | Create => createWorkItem makeHtml config false
  | Close => closeWorkItem makeHtml config
  | Reopen => reopenWorkItem makeHtml config
  | Delete => deleteWorkItem makeHtml config
  | Edit => editWorkItem makeHtml config
  | Labeled => labelWorkItem makeHtml config
  | Unlabeled => unlabelWorkItem makeHtml config
  | Assign => assignWorkItem makeHtml config
  | Unassign => unassignWorkItem makeHtml config
  | Commented => addComment makeHtml config
  end.

(** The patch document an event builds; [label], [comment] and [tags]
    (the tag field of the located work item) are read by the events that
    need them only. *)
Definition patchDoc_of (makeHtml : string -> string) (e : lifecycle)
                       (config : Config.t) (issue : Issue.t) (label : Label.t)
                       (comment : Comment.t) (tags : string) : list PatchOp :=
  match e with
  | Create => createWorkItem_patchDoc makeHtml config issue
  | Close => closeWorkItem_patchDoc config issue
  | Reopen => reopenWorkItem_patchDoc config issue
  | Delete => deleteWorkItem_patchDoc config issue
  | Edit => editWorkItem_patchDoc makeHtml config issue
  | Labeled => labelWorkItem_patchDoc config issue label
  | Unlabeled => unlabelWorkItem_patchDoc config issue label tags
  | Assign => assignWorkItem_patchDoc config issue
  | Unassign => unassignWorkItem_patchDoc config issue
  | Commented => addComment_patchDoc makeHtml config issue comment
  end.





(** ** Sample inputs *)
Module Sample.

(** The converter to HTML, on one plain paragraph. *)
Definition makeHtml (s : string) : string := "<p>" ++ s ++ "</p>".

Definition octocat : User.t :=
  {| User.login := "octocat"; User.html_url := "https://github.com/octocat" |}.

Definition bug : Label.t := {| Label.name := Some "bug" |}.

Definition issue42 : Issue.t :=
  {| Issue.number := 42;
     Issue.node_id := Some "I_kwDOExample";
     Issue.nodeId := None;
     Issue.title := "Widget breaks";
     Issue.body := Some "It breaks.";
     Issue.state := "open";
     Issue.url := "https://api.github.com/repos/acme/widgets/issues/42";
     Issue.repository_url := "https://api.github.com/repos/acme/widgets";
     Issue.user := octocat;
     Issue.labels := Some [bug];
     Issue.assignee := None;
     Issue.updated_at := Some 1704067200000 |}.

Definition settings : Ado.t :=
  {| Ado.orgUrl := "https://dev.azure.com/acme";
     Ado.token := Some "ado-token";
     Ado.project := "Widgets";
     Ado.wit := "Bug";
     Ado.states := [("closed", "Done"); ("reopened", "To Do");
                    ("deleted", "Removed")];
     Ado.areaPath := None;
     Ado.iterationPath := None;
     Ado.autoCreate := false;
     Ado.bypassRules := false;
     Ado.assignedTo := None;
     Ado.handles := None |}.

(** The configuration of an event [action] on [issue]. *)
Definition event_on (action : string) (issue : Issue.t) : Config.t :=
  {| Config.action := Some action;
     Config.issue := Some issue;
     Config.label := Some bug;
     Config.comment := None;
     Config.repository := {| Repository.full_name := "acme/widgets" |};
     Config.closed_at := None;
     Config.schedule := false;
     Config.manual_trigger := false;
     Config.GITHUB_REPOSITORY := "acme/widgets";
     Config.GITHUB_REPOSITORY_OWNER := Some "acme";
     Config.github_token := Some "gh-token";
     Config.ado := settings |}.

Definition opened42 : Config.t := event_on "opened" issue42.

(** A state table in which two keys share a mirror state. *)
Definition shared_states : Obj.t :=
  [("closed", "Done"); ("deleted", "Done"); ("reopened", "To Do")].

Definition noado : Label.t := {| Label.name := Some "NoADO" |}.

Definition issue42_excluded : Issue.t :=
  {| Issue.number := 42;
     Issue.node_id := Some "I_kwDOExample";
     Issue.nodeId := None;
     Issue.title := "Widget breaks";
     Issue.body := Some "It breaks.";
     Issue.state := "open";
     Issue.url := "https://api.github.com/repos/acme/widgets/issues/42";
     Issue.repository_url := "https://api.github.com/repos/acme/widgets";
     Issue.user := octocat;
     Issue.labels := Some [bug; noado];
     Issue.assignee := None;
     Issue.updated_at := Some 1704067200000 |}.



(** The converter back to Markdown, on plain paragraphs. *)
Definition makeMarkdown (s : string) : string :=
  JsString.replaceAll "</p>" "" (JsString.replaceAll "<p>" "" s).

(** Issue 42 once closed, last updated on 2024-01-01. *)
Definition issue42_closed : Issue.t :=
  {| Issue.number := 42;
     Issue.node_id := Some "I_kwDOExample";
     Issue.nodeId := None;
     Issue.title := "Widget breaks";
     Issue.body := Some "It breaks.";
     Issue.state := "closed";
     Issue.url := "https://api.github.com/repos/acme/widgets/issues/42";
     Issue.repository_url := "https://api.github.com/repos/acme/widgets";
     Issue.user := octocat;
     Issue.labels := Some [bug];
     Issue.assignee := None;
     Issue.updated_at := Some 1704067200000 |}.

(** Its mirror work item, changed on 2024-01-02 with the very values of
    the issue. *)
Definition item7 : WorkItem.t :=
  {| WorkItem.id := 7;
     WorkItem.TeamProject := "Widgets";
     WorkItem.WorkItemType := "Bug";
     WorkItem.Title := Some "Widget breaks";
     WorkItem.Description := Some "<p>It breaks.</p>";
     WorkItem.State := Some "Done";
     WorkItem.Tags :=
       Some "GitHub Issue #42;GitHub Repo: acme/widgets;GitHub Label: bug;";
     WorkItem.ChangedDate := Some 1704153600000;
     WorkItem.AssignedTo := None |}.

(** The same work item, retitled on the mirror side. *)
Definition item7_retitled : WorkItem.t :=
  {| WorkItem.id := 7;
     WorkItem.TeamProject := "Widgets";
     WorkItem.WorkItemType := "Bug";
     WorkItem.Title := Some "Widget breaks on start";
     WorkItem.Description := Some "<p>It breaks.</p>";
     WorkItem.State := Some "Done";
     WorkItem.Tags :=
       Some "GitHub Issue #42;GitHub Repo: acme/widgets;GitHub Label: bug;";
     WorkItem.ChangedDate := Some 1704153600000;
     WorkItem.AssignedTo := None |}.

Definition world_of (items : list WorkItem.t) (issues : list Issue.t)
  : World.t :=
  {| World.items := items;
     World.issues := issues;
     World.now := 1704240000000;
     World.yesterday := 1704153600000 - 86400000;
     World.failed := false;
     World.connection_down := false;
     World.query_down := false;
     World.fetch_down := false |}.

Definition world_synced : World.t := world_of [item7] [issue42_closed].
Definition world_retitled : World.t :=
  world_of [item7_retitled] [issue42_closed].

(** A scheduled run. *)
Definition scheduled : Config.t :=
  {| Config.action := None;
     Config.issue := None;
     Config.label := None;
     Config.comment := None;
     Config.repository := {| Repository.full_name := "acme/widgets" |};
     Config.closed_at := None;
     Config.schedule := true;
     Config.manual_trigger := false;
     Config.GITHUB_REPOSITORY := "acme/widgets";
     Config.GITHUB_REPOSITORY_OWNER := Some "acme";
     Config.github_token := Some "gh-token";
     Config.ado := settings |}.

(** No work item yet, and an issue to mirror. *)
Definition world_empty : World.t := world_of [] [issue42].

(** The mirror service rejects every query. *)
Definition world_query_down : World.t :=
  {| World.items := [item7];
     World.issues := [issue42_closed];
     World.now := 1704240000000;
     World.yesterday := 1704153600000 - 86400000;
     World.failed := false;
     World.connection_down := false;
     World.query_down := true;
     World.fetch_down := false |}.

(** A comment event on pull request 7, with the exclude label. *)
Definition pull7 : Issue.t :=
  {| Issue.number := 7;
     Issue.node_id := Some "PR_kwDOExample";
     Issue.nodeId := None;
     Issue.title := "Fix the widget";
     Issue.body := Some "Fixes #42.";
     Issue.state := "open";
     Issue.url := "https://api.github.com/repos/acme/widgets/issues/7";
     Issue.repository_url := "https://api.github.com/repos/acme/widgets";
     Issue.user := octocat;
     Issue.labels := Some [noado];
     Issue.assignee := None;
     Issue.updated_at := Some 1704067200000 |}.

(** A work item that was not made from an issue. *)
Definition item8 : WorkItem.t :=
  {| WorkItem.id := 8;
     WorkItem.TeamProject := "Widgets";
     WorkItem.WorkItemType := "Bug";
     WorkItem.Title := Some "Tracked by hand";
     WorkItem.Description := None;
     WorkItem.State := Some "To Do";
     WorkItem.Tags := Some "GitHub Repo: acme/widgets;triage;";
     WorkItem.ChangedDate := Some 1704153600000;
     WorkItem.AssignedTo := None |}.

Definition world_untagged : World.t := world_of [item8] [issue42_closed].

(** A handle table, an issue assigned to [hubot], and the work item of the
    issue as the mirror service reports its assignee. *)
Definition handles : Obj.t :=
  [("octocat", "octo@acme.example"); ("hubot", "hubot@acme.example")].

Definition settings_with_handles : Ado.t :=
  {| Ado.orgUrl := "https://dev.azure.com/acme";
     Ado.token := Some "ado-token";
     Ado.project := "Widgets";
     Ado.wit := "Bug";
     Ado.states := [("closed", "Done"); ("reopened", "To Do");
                    ("deleted", "Removed")];
     Ado.areaPath := None;
     Ado.iterationPath := None;
     Ado.autoCreate := false;
     Ado.bypassRules := false;
     Ado.assignedTo := Some "triage@acme.example";
     Ado.handles := Some handles |}.

Definition hubot : User.t :=
  {| User.login := "hubot"; User.html_url := "https://github.com/hubot" |}.

Definition issue42_assigned : Issue.t :=
  {| Issue.number := 42;
     Issue.node_id := Some "I_kwDOExample";
     Issue.nodeId := None;
     Issue.title := "Widget breaks";
     Issue.body := Some "It breaks.";
     Issue.state := "open";
     Issue.url := "https://api.github.com/repos/acme/widgets/issues/42";
     Issue.repository_url := "https://api.github.com/repos/acme/widgets";
     Issue.user := octocat;
     Issue.labels := Some [bug];
     Issue.assignee := Some hubot;
     Issue.updated_at := Some 1704067200000 |}.

Definition assigned42 : Config.t :=
  {| Config.action := Some "assigned";
     Config.issue := Some issue42_assigned;
     Config.label := None;
     Config.comment := None;
     Config.repository := {| Repository.full_name := "acme/widgets" |};
     Config.closed_at := None;
     Config.schedule := false;
     Config.manual_trigger := false;
     Config.GITHUB_REPOSITORY := "acme/widgets";
     Config.GITHUB_REPOSITORY_OWNER := Some "acme";
     Config.github_token := Some "gh-token";
     Config.ado := settings_with_handles |}.

Definition item7_assigned : WorkItem.t :=
  {| WorkItem.id := 7;
     WorkItem.TeamProject := "Widgets";
     WorkItem.WorkItemType := "Bug";
     WorkItem.Title := Some "Widget breaks";
     WorkItem.Description := Some "<p>It breaks.</p>";
     WorkItem.State := Some "To Do";
     WorkItem.Tags :=
       Some "GitHub Issue #42;GitHub Repo: acme/widgets;GitHub Label: bug;";
     WorkItem.ChangedDate := Some 1704153600000;
     WorkItem.AssignedTo := Some "Hubot@Acme.Example" |}.

(** Issue 42 while open, and the world where its work item is in step
    with it but for the state, which has no key [open] in the table. *)
Definition item7_open : WorkItem.t :=
  {| WorkItem.id := 7;
     WorkItem.TeamProject := "Widgets";
     WorkItem.WorkItemType := "Bug";
     WorkItem.Title := Some "Widget breaks";
     WorkItem.Description := Some "<p>It breaks.</p>";
     WorkItem.State := Some "To Do";
     WorkItem.Tags :=
       Some "GitHub Issue #42;GitHub Repo: acme/widgets;GitHub Label: bug;";
     WorkItem.ChangedDate := Some 1704153600000;
     WorkItem.AssignedTo := None |}.

Definition world_open : World.t := world_of [item7_open] [issue42].

(** The same event with [autoCreate] on. *)
Definition settings_autoCreate : Ado.t :=
  {| Ado.orgUrl := "https://dev.azure.com/acme";
     Ado.token := Some "ado-token";
     Ado.project := "Widgets";
     Ado.wit := "Bug";
     Ado.states := [("closed", "Done"); ("reopened", "To Do");
                    ("deleted", "Removed")];
     Ado.areaPath := None;
     Ado.iterationPath := None;
     Ado.autoCreate := true;
     Ado.bypassRules := false;
     Ado.assignedTo := None;
     Ado.handles := None |}.

Definition closed42_autoCreate : Config.t :=
  {| Config.action := Some "closed";
     Config.issue := Some issue42_closed;
     Config.label := None;
     Config.comment := None;
     Config.repository := {| Repository.full_name := "acme/widgets" |};
     Config.closed_at := None;
     Config.schedule := false;
     Config.manual_trigger := false;
     Config.GITHUB_REPOSITORY := "acme/widgets";
     Config.GITHUB_REPOSITORY_OWNER := Some "acme";
     Config.github_token := Some "gh-token";
     Config.ado := settings_autoCreate |}.

End Sample.

(** The writes of the handler of [e]: a create call carries the create
    patch document, an update call the patch document of [e]. *)
Definition writes_of (makeHtml : string -> string) (e : lifecycle)
                     (config : Config.t) (issue : Issue.t)
                     (X : Type) (c : call X) : Prop :=
  match c with
  | client_createWorkItem patchDoc _ _ _ =>
      patchDoc = createWorkItem_patchDoc makeHtml config issue
  | client_updateWorkItem patchDoc _ _ _ =>
      exists label comment tags,
        patchDoc = patchDoc_of makeHtml e config issue label comment tags
  | _ => True
  end.

(** ** Labels in the tag field *)

(** The tag of one label, [createLabels("", [label])]. *)
Definition label_tag (label : Label.t) : string :=
  createLabels "" (Some [label]).

(** The tag field after the label event: the mirror service appends the
    added tag to the field (see [World.apply_op]). *)
Definition labeled_tags (s : string) (label : Label.t) : string :=
  (s ++ label_tag label)%string.

(** The value the unlabel event computes for the tag field [tags]. *)
Definition unlabeled_tags (tags : string) (label : Label.t) : string :=
  JsString.replace (createLabels "" (Some [label])) "" tags.

(** The delimiter of the tag field. *)
Definition has_delimiter (s : string) : bool := JsString.includes ";" s.

(** ** Reverse reconciliation of one work item *)

(** The origin update that [updateIssue] sends for [wiObj]. *)
Definition update_call (makeMarkdown : string -> string) (config : Config.t)
                       (wiObj : WorkItem.t) (issue_number : string)
  : call (exc + Issue.t) :=
  issues_update
    (Config.GITHUB_REPOSITORY_OWNER config)
    (JsString.replace
       (JsString.of_opt (Config.GITHUB_REPOSITORY_OWNER config) ++ "/") ""
       (Config.GITHUB_REPOSITORY config))
    issue_number
    (WorkItem.Title wiObj)
    (candidate_body makeMarkdown wiObj)
    (candidate_state config wiObj)
    (match candidate_assignee config wiObj with
     | Some gh => if JsString.truthy gh then [gh] else []
     | None => []
     end).

(** The services give [updateIssue] the work item [wiObj], whose tags name
    the issue [n], and then the origin issue [issue]. *)
Definition reconciles {S : Type} (h : Handler S) (s : S) (config : Config.t)
                      (workItem_id : Z) (wiObj : WorkItem.t) (n : string)
                      (issue : Issue.t) : Prop :=
  truthy_opt (Config.github_token config) = true
  /\ fst (h _ (client_getWorkItem workItem_id wi_fields None) s)
     = inr (Some wiObj)
  /\ (exists tags, WorkItem.Tags wiObj = Some tags
                   /\ issue_number_of tags = Some n)
  /\ JsString.truthy n = true
  /\ fst (h _ (issues_get
                 (Config.GITHUB_REPOSITORY_OWNER config)
                 (JsString.replace
                    (JsString.of_opt (Config.GITHUB_REPOSITORY_OWNER config)
                     ++ "/") "" (Config.GITHUB_REPOSITORY config))
                 n)
            (snd (h _ (client_getWorkItem workItem_id wi_fields None) s)))
     = inr issue.

(** ** Creation against the reference model *)

(** No fault is injected in the mirror service. *)
Definition healthy (w : World.t) : Prop :=
  World.connection_down w = false
  /\ World.query_down w = false
  /\ World.fetch_down w = false.

(** The work item the reference model makes of the create patch document. *)
Definition created_item (makeHtml : string -> string) (config : Config.t)
                        (issue : Issue.t) (w : World.t) : WorkItem.t :=
  World.touch (World.now w)
    (World.apply_patch (createWorkItem_patchDoc makeHtml config issue)
       (World.blank (World.fresh_id (World.items w))
          (Ado.project (Config.ado config)) (Ado.wit (Config.ado config)))).

(** ** Counting the calls of a program *)

Definition creates (X : Type) (c : call X) : bool :=
  match c with
  | client_createWorkItem _ _ _ _ => true
  | _ => false
  end.

Definition updates (X : Type) (c : call X) : bool :=
  match c with
  | client_updateWorkItem _ _ _ _ => true
  | _ => false
  end.

Definition origin_gets (X : Type) (c : call X) : bool :=
  match c with
  | issues_get _ _ _ => true
  | _ => false
  end.

Definition origin_updates (X : Type) (c : call X) : bool :=
  match c with
  | issues_update _ _ _ _ _ _ _ => true
  | _ => false
  end.

(** A call to the origin issue service. *)
Definition is_origin_call (e : event) : bool :=
  match e with
  | Ev (issues_get _ _ _) _ => true
  | Ev (issues_update _ _ _ _ _ _ _) _ => true
  | Ev _ _ => false
  end.

(** No call to the origin issue service. *)
Definition mirror_only (X : Type) (c : call X) : Prop :=
  match c with
  | issues_get _ _ _ => False
  | issues_update _ _ _ _ _ _ _ => False
  | _ => True
  end.

Definition counts (f : forall X : Type, call X -> bool) (e : event) : bool :=
  match e with
  | Ev c _ => f _ c
  end.

(** Whatever the answers, the program issues at most [n] calls that
    satisfy [f]. *)
Fixpoint AtMost (f : forall X : Type, call X -> bool) (A : Type)
                (p : Prog A) (n : nat) {struct p} : Prop :=
  match p with
  | Ret _ => True
  | Throw _ => True
  | Call c k =>
      if f _ c then
        match n with
        | O => False
        | S m => forall x, AtMost f (k x) m
        end
      else forall x, AtMost f (k x) n
  end.

(** ** Decimal digits *)

Definition is_digit (c : ascii) : bool :=
  (Nat.leb 48 (nat_of_ascii c) && Nat.leb (nat_of_ascii c) 57)%bool.

(** The tags of a list of labels, in order. *)
Definition label_tags (labels : list Label.t) : string :=
  fold_right (fun l acc => label_tag l ++ acc) "" labels.

(** The tag string of the create patch document. *)
Definition create_tags (config : Config.t) (issue : Issue.t) : string :=
  createLabels
    ("GitHub Issue #" ++ JsString.of_Z (Issue.number issue)
     ++ ";GitHub Repo: "
     ++ Repository.full_name (Config.repository config) ++ ";")
    (Issue.labels issue).

(** The locator query of [getWorkItem] asks for tags that [v] holds. *)
Definition queries_tags_of (v : string) (X : Type) (c : call X) : Prop :=
  match c with
  | queryByWiql (ByIssue _ i r) _ =>
      JsString.includes i v = true /\ JsString.includes r v = true
  | queryByWiql (RecentOfRepo _ _) _ => False
  | _ => True
  end.

(** The last key of [o], in the order of [Object.keys], whose value is [v]. *)
Definition last_key_of (v : string) (o : Obj.t) : option string :=
  fold_left (fun acc kv => if (snd kv =? v)%string then Some (fst kv) else acc)
            o None.

Definition on_path (p : string) (o : PatchOp) : bool := (path o =? p)%string.

(** The call does not mark the action failed. *)
Definition quiet (X : Type) (c : call X) : Prop :=
  match c with
  | setFailed => False
  | _ => True
  end.

(** * Properties *)

Unset Implicit Arguments.

(** ** Strings *)

Example includes_ex : JsString.includes "Issue #" "GitHub Issue #42" = true.
Proof. reflexivity. Qed.

Example replace_ex :
  cleanUrl "https://api.github.com/repos/acme/widgets/issues/42"
  = "https://github.com/acme/widgets/issues/42".
Proof. reflexivity. Qed.

Example replaceAll_ex :
  JsString.replaceAll "<br>" "" "a<br>b<br><br>c<b" = "abc<b".
Proof. reflexivity. Qed.

Example split_ex : JsString.split ";" "a;b;;c;" = ["a"; "b"; ""; "c"; ""].
Proof. reflexivity. Qed.

Example trim_ex : JsString.trim "  a b  " = "a b".
Proof. reflexivity. Qed.

Example issue_number_of_ex :
  issue_number_of "GitHub Issue #42; GitHub Repo: acme/widgets" = Some "42".
Proof. reflexivity. Qed.

Lemma append_assoc (a b c : string) : ((a ++ b) ++ c = a ++ (b ++ c))%string.
Proof. induction a as [|x a IH]; simpl; [reflexivity | now rewrite IH]. Qed.

Lemma append_nil_r (a : string) : (a ++ "")%string = a.
Proof. induction a as [|x a IH]; simpl; [reflexivity | now rewrite IH]. Qed.

Lemma length_append (a b : string) :
  String.length (a ++ b) = (String.length a + String.length b)%nat.
Proof. induction a as [|x a IH]; simpl; [reflexivity | now rewrite IH]. Qed.

Lemma prefix_append (p s : string) : prefix p (p ++ s) = true.
Proof.
  induction p as [|x p IH]; simpl.
  - now destruct s.
  - destruct (ascii_dec x x) as [_|n]; [exact IH | now destruct n].
Qed.

Lemma prefix_inv (p s : string) :
  prefix p s = true -> exists r, s = (p ++ r)%string.
Proof.
  revert s; induction p as [|x p IH]; intros s H.
  - now exists s.
  - destruct s as [|y s]; simpl in H; [discriminate|].
    destruct (ascii_dec x y) as [->|]; [|discriminate].
    destruct (IH _ H) as [r ->]. now exists r.
Qed.

Lemma drop_append (p s : string) : JsString.drop (String.length p) (p ++ s) = s.
Proof. induction p as [|x p IH]; simpl; [now destruct s | exact IH]. Qed.

Lemma includes_prefix (p s : string) :
  prefix p s = true -> JsString.includes p s = true.
Proof. intros H. destruct s; simpl in *; rewrite H; reflexivity. Qed.

Lemma includes_append (p a b : string) :
  JsString.includes p (a ++ p ++ b) = true.
Proof.
  induction a as [|x a IH]; simpl.
  - apply includes_prefix, prefix_append.
  - rewrite IH. apply orb_true_r.
Qed.

Lemma includes_inv (p s : string) :
  JsString.includes p s = true -> exists a b, s = (a ++ p ++ b)%string.
Proof.
  induction s as [|x s IH]; cbn [JsString.includes]; intros H.
  - destruct p; [|discriminate]. now exists ""%string, ""%string.
  - apply orb_true_iff in H as [H|H].
    + destruct (prefix_inv _ _ H) as [r Hr]. exists ""%string, r. exact Hr.
    + destruct (IH H) as (a & b & ->). now exists (String x a), b.
Qed.

(** ** Programs and their runs *)

Lemma exec_bind {S A B : Type} (h : Handler S) (p : Prog A) (f : A -> Prog B) :
  forall s,
    exec h (bind p f) s =
    match out (exec h p s) with
    | Resolved a =>
        let r := exec h (f a) (final (exec h p s)) in
        {| out := out r; final := final r;
           trace := trace (exec h p s) ++ trace r |}
    | Rejected e =>
        {| out := Rejected e; final := final (exec h p s);
           trace := trace (exec h p s) |}
    end.
Proof.
  induction p as [a|e|X c k IH]; intros s; simpl.
  - now destruct (exec h (f a) s).
  - reflexivity.
  - rewrite IH. now destruct (out (exec h (k (fst (h X c s))) (snd (h X c s)))).
Qed.

Section Calls.

Variable P : forall X : Type, call X -> Prop.

Lemma AllCalls_Ret {A : Type} (a : A) : AllCalls P (Ret a).
Proof. exact I. Qed.

Lemma AllCalls_Throw {A : Type} (e : exc) : AllCalls P (Throw (A := A) e).
Proof. exact I. Qed.

Lemma AllCalls_Call {A X : Type} (c : call X) (k : X -> Prog A) :
  P _ c -> (forall x, AllCalls P (k x)) -> AllCalls P (Call c k).
Proof. intros Hc Hk. split; assumption. Qed.

Lemma AllCalls_bind {A B : Type} (p : Prog A) (f : A -> Prog B) :
  AllCalls P p -> (forall a, AllCalls P (f a)) -> AllCalls P (bind p f).
Proof.
  induction p as [a|e|X c k IH]; simpl; intros Hp Hf.
  - apply Hf.
  - exact I.
  - destruct Hp as [Hc Hk]. split; [exact Hc | intros x; now apply IH].
Qed.

Lemma AllCalls_try_catch {A : Type} (p : Prog A) (h : exc -> Prog A) :
  AllCalls P p -> (forall e, AllCalls P (h e)) -> AllCalls P (try_catch p h).
Proof.
  induction p as [a|e|X c k IH]; simpl; intros Hp Hh.
  - exact I.
  - apply Hh.
  - destruct Hp as [Hc Hk]. split; [exact Hc | intros x; now apply IH].
Qed.

Lemma AllCalls_await (X : Type) (c : call (exc + X)) :
  P _ c -> AllCalls P (await c).
Proof. intros H. split; [exact H | intros [e|x]; exact I]. Qed.

Lemma AllCalls_perform (X : Type) (c : call X) :
  P _ c -> AllCalls P (perform c).
Proof. intros H. split; [exact H | intros x; exact I]. Qed.

Lemma AllCalls_need (A : Type) (o : option A) : AllCalls P (need o).
Proof. destruct o; exact I. Qed.

(** What holds of every call of a program holds of every event of a run. *)
Lemma AllCalls_trace {S A : Type} (h : Handler S) (p : Prog A) :
  AllCalls P p -> forall s, Forall (on_call P) (trace (exec h p s)).
Proof.
  induction p as [a|e|X c k IH]; simpl; intros Hp s.
  - constructor.
  - constructor.
  - destruct Hp as [Hc Hk]. constructor; [exact Hc | now apply IH].
Qed.

Lemma AllCalls_filter {S A : Type} (f : event -> bool) (h : Handler S)
      (p : Prog A) :
  AllCalls P p -> (forall e, on_call P e -> f e = false) ->
  forall s, filter f (trace (exec h p s)) = [].
Proof.
  intros H Hf s. pose proof (AllCalls_trace h p H s) as Ht.
  induction Ht as [|e l He _ IH]; simpl; [reflexivity|].
  now rewrite (Hf e He).
Qed.

End Calls.

(** Splits a program along its binds, handlers and case analyses. *)
Ltac calls :=
  repeat first
    [ apply AllCalls_bind; [|intros ?]
    | apply AllCalls_try_catch; [|intros ?]
    | apply AllCalls_await
    | apply AllCalls_perform
    | apply AllCalls_need
    | apply AllCalls_Ret
    | apply AllCalls_Throw
    | apply AllCalls_Call; [|intros ?]
    | match goal with
      | |- AllCalls _ (match ?x with _ => _ end) => destruct x
      | |- AllCalls _ (if ?x then _ else _) => destruct x
      end ].

(** ** The locator and the executor issue the calls one expects *)

Lemma query_workItems_reads_only q project :
  AllCalls reads_only (query_workItems q project).
Proof. unfold query_workItems. calls; exact I. Qed.

Lemma getWorkItem_reads_only config skipQuery :
  AllCalls reads_only (getWorkItem config skipQuery).
Proof.
  unfold getWorkItem. destruct skipQuery; calls;
    try exact I; apply query_workItems_reads_only.
Qed.

Lemma AllCalls_impl (P Q : forall X : Type, call X -> Prop) A (p : Prog A) :
  (forall X (c : call X), P X c -> Q X c) -> AllCalls P p -> AllCalls Q p.
Proof.
  intros H. induction p as [a|e|X c k IH]; simpl; auto.
  intros [Hc Hk]. split; auto.
Qed.

Lemma AllCalls_conj (P Q : forall X : Type, call X -> Prop) A (p : Prog A) :
  AllCalls P p -> AllCalls Q p ->
  AllCalls (fun X c => P X c /\ Q X c) p.
Proof.
  induction p as [a|e|X c k IH]; simpl; auto.
  intros [Hc Hk] [Hc' Hk']. split; auto.
Qed.

Lemma reads_only_creates_with Q A (p : Prog A) :
  AllCalls reads_only p -> AllCalls (creates_with Q) p.
Proof.
  apply AllCalls_impl. intros X c. destruct c; simpl; tauto.
Qed.

Lemma createWorkItem_calls makeHtml config skipQuery (Q : list PatchOp -> Prop) :
  (forall issue, Config.issue config = Some issue ->
                 Q (createWorkItem_patchDoc makeHtml config issue)) ->
  AllCalls (creates_with Q) (createWorkItem makeHtml config skipQuery).
Proof.
  intros HQ. unfold createWorkItem.
  apply AllCalls_bind.
  - apply reads_only_creates_with, getWorkItem_reads_only.
  - intros workItem. destruct (truthy workItem); [exact I|].
    destruct (Config.issue config) as [issue|]; cbn [need bind]; [|exact I].
    calls; simpl; auto.
Qed.

Lemma submit_update_calls config patchDoc workItem :
  AllCalls (updates_with (eq patchDoc)) (submit_update config patchDoc workItem).
Proof.
  unfold submit_update, id_of. calls; simpl; auto.
Qed.

Lemma reads_only_updates_with Q A (p : Prog A) :
  AllCalls reads_only p -> AllCalls (updates_with Q) p.
Proof.
  apply AllCalls_impl. intros X c. destruct c; simpl; tauto.
Qed.

Lemma createWorkItem_no_update makeHtml config skipQuery Q :
  AllCalls (updates_with Q) (createWorkItem makeHtml config skipQuery).
Proof.
  unfold createWorkItem. apply AllCalls_bind.
  - apply reads_only_updates_with, getWorkItem_reads_only.
  - intros workItem. calls; simpl; auto.
Qed.

(** Every update call of [updateWorkItem] carries the patch document it
    was given. *)
Lemma updateWorkItem_calls makeHtml config patchDoc :
  AllCalls (updates_with (eq patchDoc)) (updateWorkItem makeHtml config patchDoc).
Proof.
  unfold updateWorkItem. apply AllCalls_bind.
  - apply reads_only_updates_with, getWorkItem_reads_only.
  - intros workItem. destruct (negb (truthy workItem)).
    + destruct (Ado.autoCreate (Config.ado config)); [|exact I].
      apply AllCalls_bind; [apply createWorkItem_no_update|].
      intros created. apply submit_update_calls.
    + apply submit_update_calls.
Qed.

(** ** The create patch document *)

Lemma createWorkItem_patchDoc_In makeHtml config issue o :
  In o (createWorkItem_patchDoc makeHtml config issue) ->
  In o (firstn 7 (createWorkItem_patchDoc makeHtml config issue))
  \/ (op o = add /\
      In (path o) [f_AssignedTo; f_AreaPath; f_IterationPath; f_CreatedBy]).
Proof.
  unfold createWorkItem_patchDoc.
  rewrite !in_app_iff. intros [H | [H | [H | [H | H]]]].
  - left. exact H.
  - right. destruct (truthy_opt (getAssignee config true)); [|contradiction].
    destruct H as [<-|[]]. simpl. auto.
  - right. destruct (truthy_opt (Ado.areaPath (Config.ado config)));
      [|contradiction].
    destruct H as [<-|[]]. simpl. auto.
  - right. destruct (truthy_opt (Ado.iterationPath (Config.ado config)));
      [|contradiction].
    destruct H as [<-|[]]. simpl. auto.
  - right. destruct (Ado.bypassRules (Config.ado config)); [|contradiction].
    destruct H as [<-|[]]. simpl. auto 6.
Qed.

(** C10: for every configuration the create patch document holds an [add]
    on [/relations/-] whose value is the [System.LinkTypes.Hierarchy-Reverse]
    link to the fixed work item 24493735, and every create call that
    [createWorkItem] issues, whatever the services answer, carries it. *)
Theorem createWorkItem_parent_link :
  (forall makeHtml config issue,
      In parent_link (createWorkItem_patchDoc makeHtml config issue))
  /\ (forall makeHtml config skipQuery (S : Type) (h : Handler S) (s : S),
         Forall (on_call (creates_with (In parent_link)))
           (trace (exec h (createWorkItem makeHtml config skipQuery) s))).
Proof.
  assert (H : forall makeHtml config issue,
             In parent_link (createWorkItem_patchDoc makeHtml config issue)).
  { intros. unfold createWorkItem_patchDoc. apply in_or_app. left.
    simpl. auto. }
  split; [exact H|].
  intros. apply AllCalls_trace, createWorkItem_calls. intros. apply H.
Qed.

(** C7: issue 42 of [acme/widgets] with the one label [bug] and no assignee:
    the tag operation of the create patch document has the value
    [GitHub Issue #42;GitHub Repo: acme/widgets;GitHub Label: bug;], and the
    document has no operation on the state field. *)
Theorem createWorkItem_scenario_tags makeHtml config issue :
  Issue.number issue = 42 ->
  Repository.full_name (Config.repository config) = "acme/widgets" ->
  Issue.labels issue = Some [{| Label.name := Some "bug" |}] ->
  Issue.assignee issue = None ->
  let patchDoc := createWorkItem_patchDoc makeHtml config issue in
  In (add_str f_Tags
        "GitHub Issue #42;GitHub Repo: acme/widgets;GitHub Label: bug;") patchDoc
  /\ (forall o, In o patchDoc -> path o = f_Tags ->
                o = add_str f_Tags
                      "GitHub Issue #42;GitHub Repo: acme/widgets;GitHub Label: bug;")
  /\ (forall o, In o patchDoc -> path o <> f_State).
Proof.
  intros Hn Hr Hl Ha patchDoc.
  assert (Hbase : forall o,
             In o (firstn 7 patchDoc) ->
             (path o = f_Tags ->
              o = add_str f_Tags
                    "GitHub Issue #42;GitHub Repo: acme/widgets;GitHub Label: bug;")
             /\ path o <> f_State).
  { subst patchDoc. unfold createWorkItem_patchDoc.
    cbn [firstn app]. rewrite Hn, Hr, Hl.
    intros o Ho. simpl in Ho.
    repeat (destruct Ho as [<-|Ho]; [split; [try discriminate|discriminate]|]);
      try contradiction.
    intros _. reflexivity. }
  repeat split.
  - subst patchDoc. unfold createWorkItem_patchDoc. apply in_or_app. left.
    rewrite Hn, Hr, Hl. simpl. auto 8.
  - intros o Ho Hp.
    destruct (createWorkItem_patchDoc_In _ _ _ _ Ho) as [H|[_ H]].
    + now apply Hbase.
    + rewrite Hp in H. simpl in H. repeat (destruct H as [H|H]; [discriminate|]).
      contradiction.
  - intros o Ho Hp.
    destruct (createWorkItem_patchDoc_In _ _ _ _ Ho) as [H|[_ H]].
    + now apply (Hbase o H).
    + rewrite Hp in H. simpl in H. repeat (destruct H as [H|H]; [discriminate|]).
      contradiction.
Qed.

Lemma createWorkItem_scenario_tags_witness :
  In (add_str f_Tags
        "GitHub Issue #42;GitHub Repo: acme/widgets;GitHub Label: bug;")
     (createWorkItem_patchDoc Sample.makeHtml Sample.opened42 Sample.issue42)
  /\ forall o,
       In o (createWorkItem_patchDoc Sample.makeHtml Sample.opened42
               Sample.issue42) ->
       path o <> f_State.
Proof.
  pose proof (createWorkItem_scenario_tags Sample.makeHtml Sample.opened42
                Sample.issue42 eq_refl eq_refl eq_refl eq_refl) as H.
  split; [exact (proj1 H) | exact (proj2 (proj2 H))].
Defined.

(** ** The reverse state lookup *)

Lemma Obj_get_In_keys k v (o : Obj.t) :
  Obj.get k o = Some v -> In k (Obj.keys o).
Proof.
  induction o as [|[k' v'] o IH]; simpl; [discriminate|].
  destruct (String.eqb_spec k' k) as [->|_]; auto.
Qed.

(** The lookup returns the first key, in the order of [Object.keys], that
    is mapped to the value. *)
Lemma deriveStateKey_first states v k :
  deriveStateKey states (Some v) = Some k ->
  Obj.get k states = Some v.
Proof.
  unfold deriveStateKey. intros H. apply find_some in H as [_ H].
  destruct (Obj.get k states) as [a|]; [|discriminate].
  now apply String.eqb_eq in H as ->.
Qed.

(** C8, as amended: in a state table no two keys of which are mapped to the
    same mirror state, the reverse lookup of the value stored under a key
    returns that key. *)
Theorem deriveStateKey_roundtrip (states : Obj.t) (k v : string) :
  (forall k1 k2 v', Obj.get k1 states = Some v' ->
                    Obj.get k2 states = Some v' -> k1 = k2) ->
  Obj.get k states = Some v ->
  deriveStateKey states (Obj.get k states) = Some k.
Proof.
  intros Hinj Hk. rewrite Hk.
  destruct (deriveStateKey states (Some v)) as [k'|] eqn:E.
  - f_equal. apply (Hinj k' k v); [|exact Hk].
    now apply deriveStateKey_first.
  - unfold deriveStateKey in E.
    pose proof (find_none _ _ E k (Obj_get_In_keys _ _ _ Hk)) as H.
    cbv beta in H. rewrite Hk, String.eqb_refl in H. discriminate.
Qed.

Lemma sample_states_injective :
  forall k1 k2 v',
    Obj.get k1 (Ado.states Sample.settings) = Some v' ->
    Obj.get k2 (Ado.states Sample.settings) = Some v' -> k1 = k2.
Proof.
  intros k1 k2 v'. unfold Sample.settings, Ado.states, Obj.get.
  destruct (String.eqb_spec "closed" k1) as [<-|?];
    [|destruct (String.eqb_spec "reopened" k1) as [<-|?];
      [|destruct (String.eqb_spec "deleted" k1) as [<-|?]; [|congruence]]];
  (destruct (String.eqb_spec "closed" k2) as [<-|?];
    [|destruct (String.eqb_spec "reopened" k2) as [<-|?];
      [|destruct (String.eqb_spec "deleted" k2) as [<-|?]; [|congruence]]]);
  congruence.
Qed.

Lemma deriveStateKey_roundtrip_witness :
  deriveStateKey (Ado.states Sample.settings)
    (Obj.get "deleted" (Ado.states Sample.settings)) = Some "deleted".
Proof.
  exact (deriveStateKey_roundtrip (Ado.states Sample.settings)
           "deleted" "Removed" sample_states_injective eq_refl).
Defined.

(** C8 fails as it is stated: where [closed] and [deleted] are both mapped
    to [Done], the value stored under [deleted] is looked up as [closed]. *)
Lemma deriveStateKey_shared_value :
  Obj.get "deleted" Sample.shared_states = Some "Done"
  /\ deriveStateKey Sample.shared_states
       (Obj.get "deleted" Sample.shared_states) = Some "closed"
  /\ deriveStateKey Sample.shared_states
       (Obj.get "deleted" Sample.shared_states) <> Some "deleted".
Proof. repeat split. discriminate. Qed.

(** ** The exclude label *)

Example has_noado_ex :
  has_noado (Issue.labels Sample.issue42_excluded) = true
  /\ has_noado (Issue.labels Sample.issue42) = false.
Proof. split; reflexivity. Qed.



(** ** The history entry of a patch document *)


(** Brings two concatenations to the same shape. *)
Ltac str_norm :=
  repeat rewrite append_assoc; cbn [append];
  repeat rewrite append_nil_r; reflexivity.






(** ** The handlers submit the patch documents *)


Lemma updateWorkItem_creates makeHtml config patchDoc (Q : list PatchOp -> Prop) :
  (forall issue, Config.issue config = Some issue ->
                 Q (createWorkItem_patchDoc makeHtml config issue)) ->
  AllCalls (creates_with Q) (updateWorkItem makeHtml config patchDoc).
Proof.
  intros HQ. unfold updateWorkItem. apply AllCalls_bind.
  - apply reads_only_creates_with, getWorkItem_reads_only.
  - intros workItem.
    assert (Hs : forall w, AllCalls (creates_with Q)
                             (submit_update config patchDoc w)).
    { intros w. unfold submit_update, id_of. calls; simpl; auto. }
    destruct (negb (truthy workItem)); [|apply Hs].
    destruct (Ado.autoCreate (Config.ado config)); [|exact I].
    apply AllCalls_bind; [now apply createWorkItem_calls | exact Hs].
Qed.

Lemma updateWorkItem_writes makeHtml e config issue label comment tags :
  Config.issue config = Some issue ->
  AllCalls (writes_of makeHtml e config issue)
    (updateWorkItem makeHtml config
       (patchDoc_of makeHtml e config issue label comment tags)).
Proof.
  intros Hi.
  eapply AllCalls_impl;
    [|apply AllCalls_conj;
      [apply (updateWorkItem_creates makeHtml config _
                (eq (createWorkItem_patchDoc makeHtml config issue)))
      |apply updateWorkItem_calls]].
  - intros X c [Hc Hu]. destruct c; simpl in *; auto.
    exists label, comment, tags. now symmetry.
  - intros issue' Hi'. congruence.
Qed.

(** Whatever the services answer, the handler of an event submits to the
    mirror service the patch documents of that event only. *)
Lemma handler_of_writes makeHtml e config issue :
  Config.issue config = Some issue ->
  AllCalls (writes_of makeHtml e config issue) (handler_of makeHtml e config).
Proof.
  intros Hi.
  pose (l0 := {| Label.name := None |}).
  pose (c0 := {| Comment.id := 0; Comment.body := ""; Comment.html_url := "";
                 Comment.user := Issue.user issue |}).
  destruct e; cbn [handler_of].
  - eapply AllCalls_impl;
      [|apply AllCalls_conj;
        [apply (createWorkItem_calls makeHtml config false
                  (eq (createWorkItem_patchDoc makeHtml config issue)))
        |apply (createWorkItem_no_update makeHtml config false (fun _ => False))]].
    + intros X c [Hc Hu]. destruct c; simpl in *; auto. contradiction.
    + intros issue' Hi'. congruence.
  - unfold closeWorkItem. rewrite Hi. cbn [need bind].
    apply (updateWorkItem_writes makeHtml Close config issue l0 c0 "" Hi).
  - unfold reopenWorkItem. rewrite Hi. cbn [need bind].
    apply (updateWorkItem_writes makeHtml Reopen config issue l0 c0 "" Hi).
  - unfold deleteWorkItem. rewrite Hi. cbn [need bind].
    apply (updateWorkItem_writes makeHtml Delete config issue l0 c0 "" Hi).
  - unfold editWorkItem. rewrite Hi. cbn [need bind].
    apply (updateWorkItem_writes makeHtml Edit config issue l0 c0 "" Hi).
  - unfold labelWorkItem. rewrite Hi.
    destruct (Config.label config) as [l|]; cbn [need bind]; [|exact I].
    apply (updateWorkItem_writes makeHtml Labeled config issue l c0 "" Hi).
  - unfold unlabelWorkItem. apply AllCalls_bind.
    + eapply AllCalls_impl; [|apply getWorkItem_reads_only].
      intros X c. destruct c; simpl; tauto.
    + intros workItem. destruct (negb (truthy workItem)); [exact I|].
      apply AllCalls_bind.
      * unfold tags_of. destruct workItem; try exact I. apply AllCalls_need.
      * intros tags. rewrite Hi.
        destruct (Config.label config) as [l|]; cbn [need bind]; [|exact I].
        apply (updateWorkItem_writes makeHtml Unlabeled config issue l c0 tags Hi).
  - unfold assignWorkItem. rewrite Hi. cbn [need bind].
    apply (updateWorkItem_writes makeHtml Assign config issue l0 c0 "" Hi).
  - unfold unassignWorkItem. rewrite Hi. cbn [need bind].
    apply (updateWorkItem_writes makeHtml Unassign config issue l0 c0 "" Hi).
  - unfold addComment. rewrite Hi.
    destruct (Config.comment config) as [c|]; cbn [need bind]; [|exact I].
    apply (updateWorkItem_writes makeHtml Commented config issue l0 c "" Hi).
Qed.

(** [performWork] runs the handler of the action, unless the issue carries
    the exclude label. *)
Lemma performWork_dispatch makeHtml makeMarkdown e config :
  Config.action config = Some (action_of e) ->
  has_noado (match Config.issue config with
             | Some i => Issue.labels i
             | None => None
             end) = false ->
  performWork makeHtml makeMarkdown config
  = (workItem <- handler_of makeHtml e config ;;
     (if (Config.schedule config || Config.manual_trigger config)%bool
      then updateIssues makeMarkdown config ;;; Ret tt
      else Ret tt) ;;;
     Ret workItem).
Proof.
  intros Ha Hl. unfold performWork, is_action. rewrite Hl, Ha.
  destruct e; reflexivity.
Qed.

(** ** Label and unlabel *)

Lemma prefix_nil (s : string) : prefix "" s = true.
Proof. now destruct s. Qed.

Lemma prefix_refl (p : string) : prefix p p = true.
Proof.
  induction p as [|x p IH]; simpl; [reflexivity|].
  destruct (ascii_dec x x) as [_|n]; [exact IH | now destruct n].
Qed.

Lemma drop_all (p : string) : JsString.drop (String.length p) p = ""%string.
Proof. induction p as [|x p IH]; simpl; auto. Qed.

Lemma prefix_cons (x y : ascii) (p s : string) :
  prefix (String x p) (String y s) = true <-> x = y /\ prefix p s = true.
Proof.
  simpl. destruct (ascii_dec x y) as [->|n]; split; intros H.
  - now split.
  - apply H.
  - discriminate H.
  - now destruct H.
Qed.

Lemma has_delimiter_cons (c : ascii) (s : string) :
  has_delimiter (String c s) = true <-> c = ";"%char \/ has_delimiter s = true.
Proof.
  unfold has_delimiter. cbn [JsString.includes].
  rewrite orb_true_iff. split; intros [H|H]; auto.
  - apply prefix_cons in H as [<- _]. now left.
  - left. apply prefix_cons. split; [now symmetry | apply prefix_nil].
Qed.

(** A match of [body;] at the head of [t ++ y] lies within [t], or [t] is
    used up inside [body]. *)
Lemma prefix_across (body t y : string) :
  prefix (body ++ ";") (t ++ y) = true ->
  prefix (body ++ ";") t = true
  \/ exists rest, body = (t ++ rest)%string /\ prefix (rest ++ ";") y = true.
Proof.
  revert t. induction body as [|b body IH]; intros t H.
  - destruct t as [|c t]; [right; now exists ""%string|].
    left. cbn [append] in *. apply prefix_cons in H as [<- _].
    apply prefix_cons. split; [reflexivity | apply prefix_nil].
  - destruct t as [|c t]; [right; now exists (String b body)|].
    cbn [append] in H. apply prefix_cons in H as [<- H].
    destruct (IH t H) as [H'|(rest & -> & H')].
    + left. cbn [append]. now apply prefix_cons.
    + right. exists rest. split; [reflexivity | exact H'].
Qed.

Lemma delimiter_inside (rest r body : string) :
  (rest ++ ";" ++ r = body ++ ";")%string -> r <> ""%string ->
  has_delimiter body = true.
Proof.
  revert body. induction rest as [|x rest IH]; intros body E Hr.
  - destruct body as [|c body]; cbn [append] in E.
    + injection E as E. now destruct Hr.
    + injection E as <- _. apply has_delimiter_cons. now left.
  - destruct body as [|c body]; cbn [append] in E.
    + injection E as _ E. destruct rest; discriminate.
    + injection E as _ E. apply has_delimiter_cons. right. now apply IH.
Qed.

(** The first match of [body;] in [s ++ body;] is the appended one, when
    the delimiter is not in [body] and [body;] is not in [s]. *)
Lemma replace_appended (body s : string) :
  has_delimiter body = false ->
  JsString.includes (body ++ ";") s = false ->
  JsString.replace (body ++ ";") "" (s ++ body ++ ";") = s.
Proof.
  intros Hb. induction s as [|c s IH]; intros Hs.
  - cbn [append]. destruct (body ++ ";")%string eqn:E.
    + destruct body; discriminate.
    + rewrite <- E. unfold JsString.replace.
      destruct (body ++ ";")%string eqn:E'; [discriminate|].
      rewrite <- E'. rewrite prefix_refl, drop_all. reflexivity.
  - cbn [JsString.includes] in Hs. apply orb_false_iff in Hs as [Hp Hs].
    cbn [append JsString.replace].
    destruct (prefix (body ++ ";") (String c (s ++ body ++ ";"))) eqn:E.
    + exfalso. change (String c (s ++ body ++ ";"))
        with (String c s ++ (body ++ ";"))%string in E.
      apply prefix_across in E as [E|(rest & E1 & E2)]; [congruence|].
      apply prefix_inv in E2 as [r E2].
      assert (Hr : r <> ""%string).
      { intros ->. apply (f_equal String.length) in E2.
        rewrite E1 in E2. rewrite !length_append in E2.
        cbn [String.length] in E2. lia. }
      rewrite append_assoc in E2.
      rewrite (delimiter_inside rest r body (eq_sym E2) Hr) in Hb.
      discriminate.
    + now rewrite IH.
Qed.

Lemma label_tag_eq (label : Label.t) :
  label_tag label
  = (("GitHub Label: " ++ JsString.of_opt (Label.name label)) ++ ";")%string.
Proof. unfold label_tag, createLabels. cbn [fold_left]. now rewrite append_assoc. Qed.

Lemma has_delimiter_label_body (n : string) :
  has_delimiter n = false -> has_delimiter ("GitHub Label: " ++ n) = false.
Proof.
  intros H. cbn [append].
  repeat match goal with
         | |- has_delimiter (String ?c ?s) = false =>
             destruct (has_delimiter (String c s)) eqn:E; [|reflexivity];
             apply has_delimiter_cons in E as [E|E]; [discriminate|];
             rewrite <- E; clear E
         end.
  exact H.
Qed.

(** C9, as amended: for a label whose name holds no [;] and whose tag
    [GitHub Label: name;] does not occur in the tag string [s], the tag
    subtraction of unlabel, applied to the tag field that label produced
    from [s], gives [s] again. *)
Theorem unlabel_after_label (s : string) (label : Label.t) :
  has_delimiter (JsString.of_opt (Label.name label)) = false ->
  JsString.includes (label_tag label) s = false ->
  unlabeled_tags (labeled_tags s label) label = s.
Proof.
  intros Hn Hs. unfold unlabeled_tags, labeled_tags.
  fold (label_tag label). rewrite label_tag_eq in *.
  apply replace_appended; [now apply has_delimiter_label_body | exact Hs].
Qed.

Lemma unlabel_after_label_witness :
  unlabeled_tags
    (labeled_tags "GitHub Issue #42;GitHub Repo: acme/widgets;" Sample.bug)
    Sample.bug
  = "GitHub Issue #42;GitHub Repo: acme/widgets;"%string.
Proof.
  apply (unlabel_after_label "GitHub Issue #42;GitHub Repo: acme/widgets;"
           Sample.bug); reflexivity.
Defined.

(** C9 fails as it is stated: when the tag of the label is already in the
    tag string, the subtraction removes that first occurrence and leaves
    the appended one, so the tags come back in another order. *)
Lemma relabel_reorders_tags :
  has_delimiter "bug" = false
  /\ unlabeled_tags
       (labeled_tags
          "GitHub Issue #42;GitHub Repo: acme/widgets;GitHub Label: bug;GitHub Label: ui;"
          Sample.bug)
       Sample.bug
     = "GitHub Issue #42;GitHub Repo: acme/widgets;GitHub Label: ui;GitHub Label: bug;"%string
  /\ unlabeled_tags
       (labeled_tags
          "GitHub Issue #42;GitHub Repo: acme/widgets;GitHub Label: bug;GitHub Label: ui;"
          Sample.bug)
       Sample.bug
     <> "GitHub Issue #42;GitHub Repo: acme/widgets;GitHub Label: bug;GitHub Label: ui;"%string.
Proof. repeat split. discriminate. Qed.

(** The two functions are what the patch documents and the mirror service
    compute: label, then unlabel, through the reference model. *)
Lemma label_then_unlabel_in_model config issue label (w : WorkItem.t) s :
  WorkItem.Tags w = Some s ->
  let w1 := World.apply_patch (labelWorkItem_patchDoc config issue label) w in
  WorkItem.Tags w1 = Some (labeled_tags s label)
  /\ WorkItem.Tags
       (World.apply_patch
          (unlabelWorkItem_patchDoc config issue label (labeled_tags s label))
          w1)
     = Some (unlabeled_tags (labeled_tags s label) label).
Proof.
  intros Hs. split.
  - unfold World.apply_patch, labelWorkItem_patchDoc. cbn [fold_left].
    unfold World.apply_op at 1 2.
    cbn [path op value add_str World.str_of WorkItem.Tags].
    change (f_History =? f_Tags)%string with false.
    change (f_Tags =? f_Tags)%string with true.
    cbv iota. rewrite Hs. reflexivity.
  - unfold World.apply_patch, unlabelWorkItem_patchDoc. cbn [fold_left].
    unfold World.apply_op at 1 2.
    cbn [path op value add_str replace_str World.str_of WorkItem.Tags].
    change (f_History =? f_Tags)%string with false.
    change (f_Tags =? f_Tags)%string with true.
    cbv iota. reflexivity.
Qed.

(** ** Reverse reconciliation *)

(** The run of [updateIssue] once both fetches have succeeded: the two
    reads, then the update exactly when the mirror is fresher and some
    candidate value differs. *)
Lemma updateIssue_run makeMarkdown config id (S : Type) (h : Handler S) (s : S)
      wiObj n issue :
  reconciles h s config id wiObj n issue ->
  map is_origin_update
      (trace (exec h (updateIssue makeMarkdown config id) s))
  = ([false; false]
     ++ (if (fresher wiObj issue && differs makeMarkdown config wiObj issue)%bool
         then [true] else []))%list
  /\ ((fresher wiObj issue && differs makeMarkdown config wiObj issue)%bool
      = false ->
      out (exec h (updateIssue makeMarkdown config id) s) = Resolved None)
  /\ Forall (on_call (fun X c =>
               match c with
               | issues_update _ _ _ _ _ _ _ =>
                   existT call X c
                   = existT call _ (update_call makeMarkdown config wiObj n)
               | _ => True
               end))
       (trace (exec h (updateIssue makeMarkdown config id) s)).
Proof.
  intros (Htok & Hget & (tags & Htags & Hn) & Hnt & Hissue).
  unfold updateIssue. rewrite Htok. cbn [bind await exec out final trace].
  rewrite Hget. cbn [bind need exec]. rewrite Htags. cbn [bind need exec].
  rewrite Hn, Hnt. cbn [negb bind exec out final trace].
  rewrite Hissue. cbn [bind exec].
  destruct (fresher wiObj issue); cbn [andb];
    [destruct (differs makeMarkdown config wiObj issue)|];
    cbn [bind exec out final trace map is_origin_update app].
  - match goal with
    | |- context [match fst ?x with inl _ => _ | inr _ => _ end] =>
        destruct (fst x)
    end; cbn [bind exec out final trace map is_origin_update app];
      (split; [reflexivity|split; [discriminate|repeat constructor]]).
  - split; [reflexivity|split; [reflexivity|repeat constructor]].
  - split; [reflexivity|split; [reflexivity|repeat constructor]].
Qed.


Lemma existsb_map {A : Type} (f : A -> bool) (l : list A) :
  existsb f l = existsb (fun b => b) (map f l).
Proof. induction l as [|a l IH]; simpl; [reflexivity | now rewrite IH]. Qed.

Lemma updateIssue_writes makeMarkdown config id (S : Type) (h : Handler S)
      (s : S) wiObj n issue :
  reconciles h s config id wiObj n issue ->
  existsb is_origin_update
    (trace (exec h (updateIssue makeMarkdown config id) s))
  = (fresher wiObj issue && differs makeMarkdown config wiObj issue)%bool.
Proof.
  intros H. destruct (updateIssue_run makeMarkdown config id S h s wiObj n issue H)
    as (Ht & _ & _).
  rewrite existsb_map, Ht.
  now destruct (fresher wiObj issue && differs makeMarkdown config wiObj issue)%bool.
Qed.

Example reconciles_synced :
  reconciles World.handle Sample.world_synced Sample.scheduled 7
    Sample.item7 "42" Sample.issue42_closed.
Proof.
  repeat split; try reflexivity.
  eexists. split; reflexivity.
Qed.

Example reconciles_retitled :
  reconciles World.handle Sample.world_retitled Sample.scheduled 7
    Sample.item7_retitled "42" Sample.issue42_closed.
Proof.
  repeat split; try reflexivity.
  eexists. split; reflexivity.
Qed.

(** C2, as amended: once the work item and its origin issue are fetched,
    [updateIssue] sends an update to the origin issue exactly when the
    change time of the work item is strictly later than the update time of
    the issue, the issue does not carry the exclude label, and a candidate
    value differs from the value of the issue.  In particular no update is
    sent when the change time is equal or earlier. *)
Theorem reverse_write_iff makeMarkdown config id (S : Type) (h : Handler S)
        (s : S) wiObj n issue :
  reconciles h s config id wiObj n issue ->
  (existsb is_origin_update
     (trace (exec h (updateIssue makeMarkdown config id) s)) = true
   <-> date_gt (WorkItem.ChangedDate wiObj) (Issue.updated_at issue) = true
       /\ has_noado (Issue.labels issue) = false
       /\ differs makeMarkdown config wiObj issue = true)
  /\ (forall t1 t2,
         WorkItem.ChangedDate wiObj = Some t1 ->
         Issue.updated_at issue = Some t2 ->
         t1 <= t2 ->
         existsb is_origin_update
           (trace (exec h (updateIssue makeMarkdown config id) s)) = false).
Proof.
  intros H. rewrite (updateIssue_writes makeMarkdown config id S h s wiObj n issue H).
  unfold fresher. split.
  - rewrite !andb_true_iff, negb_true_iff. tauto.
  - intros t1 t2 -> -> Hle. unfold date_gt.
    replace (t1 >? t2) with false; [reflexivity|].
    symmetry. rewrite Z.gtb_ltb. now apply Z.ltb_ge.
Qed.


Lemma reverse_write_iff_witness :
  existsb is_origin_update
    (trace (exec World.handle
              (updateIssue Sample.makeMarkdown Sample.scheduled 7)
              Sample.world_retitled)) = true
  /\ forall t1 t2,
       WorkItem.ChangedDate Sample.item7_retitled = Some t1 ->
       Issue.updated_at Sample.issue42_closed = Some t2 ->
       t1 <= t2 ->
       existsb is_origin_update
         (trace (exec World.handle
                   (updateIssue Sample.makeMarkdown Sample.scheduled 7)
                   Sample.world_retitled)) = false.
Proof.
  assert (H : reconciles World.handle Sample.world_retitled Sample.scheduled 7
                Sample.item7_retitled "42" Sample.issue42_closed).
  { repeat split; try reflexivity. eexists. split; reflexivity. }
  destruct (reverse_write_iff Sample.makeMarkdown Sample.scheduled 7 World.t
              World.handle Sample.world_retitled Sample.item7_retitled "42"
              Sample.issue42_closed H) as [Hiff Hle].
  split; [|exact Hle].
  apply Hiff. repeat split; reflexivity.
Defined.

(** C2 fails as it is stated: the work item was changed a day after the
    issue was updated and the issue has no exclude label, yet no update is
    sent, because every candidate value equals the value of the issue. *)
Lemma fresher_and_equal_no_write :
  date_gt (WorkItem.ChangedDate Sample.item7)
          (Issue.updated_at Sample.issue42_closed) = true
  /\ has_noado (Issue.labels Sample.issue42_closed) = false
  /\ existsb is_origin_update
       (trace (exec World.handle
                 (updateIssue Sample.makeMarkdown Sample.scheduled 7)
                 Sample.world_synced)) = false.
Proof. repeat split. Qed.

Lemma opt_eqb_refl (a : option string) : opt_eqb a a = true.
Proof. destruct a; simpl; [apply String.eqb_refl | reflexivity]. Qed.

(** C3: once the work item and its origin issue are fetched, if the
    candidate title, body and state are the values of the issue and the
    candidate assignee is the assignee of the issue up to letter case, then
    [updateIssue] sends no update to the origin issue and resolves to
    [null], whether or not the work item is the fresher of the two. *)
Theorem equal_candidates_no_write makeMarkdown config id (S : Type)
        (h : Handler S) (s : S) wiObj n issue :
  reconciles h s config id wiObj n issue ->
  WorkItem.Title wiObj = Some (Issue.title issue) ->
  Some (candidate_body makeMarkdown wiObj) = Issue.body issue ->
  candidate_state config wiObj = Some (Issue.state issue) ->
  option_map JsString.toLowerCase (candidate_assignee config wiObj)
  = option_map JsString.toLowerCase
      (option_map User.login (Issue.assignee issue)) ->
  existsb is_origin_update
    (trace (exec h (updateIssue makeMarkdown config id) s)) = false
  /\ out (exec h (updateIssue makeMarkdown config id) s) = Resolved None.
Proof.
  intros H Ht Hb Hs Ha.
  assert (Hd : differs makeMarkdown config wiObj issue = false).
  { unfold differs. rewrite Ht, Hb, Hs, Ha, !opt_eqb_refl. reflexivity. }
  split.
  - rewrite (updateIssue_writes makeMarkdown config id S h s wiObj n issue H), Hd.
    apply andb_false_r.
  - destruct (updateIssue_run makeMarkdown config id S h s wiObj n issue H)
      as (_ & Ho & _).
    apply Ho. rewrite Hd. apply andb_false_r.
Qed.

Lemma equal_candidates_no_write_witness :
  fresher Sample.item7 Sample.issue42_closed = true
  /\ existsb is_origin_update
       (trace (exec World.handle
                 (updateIssue Sample.makeMarkdown Sample.scheduled 7)
                 Sample.world_synced)) = false
  /\ out (exec World.handle
            (updateIssue Sample.makeMarkdown Sample.scheduled 7)
            Sample.world_synced) = Resolved None.
Proof.
  split; [reflexivity|].
  apply (equal_candidates_no_write Sample.makeMarkdown Sample.scheduled 7
           World.t World.handle Sample.world_synced Sample.item7 "42"
           Sample.issue42_closed); try reflexivity.
  repeat split; try reflexivity. eexists. split; reflexivity.
Defined.

(** ** Creation is idempotent *)

(** Decides the comparisons of closed strings in the goal. *)
Ltac eval_eqb :=
  repeat match goal with
         | |- context [String.eqb ?a ?b] =>
             let r := eval vm_compute in (String.eqb a b) in
             match r with
             | true => change (String.eqb a b) with true
             | false => change (String.eqb a b) with false
             end
         end.

Lemma apply_patch_app (a b : list PatchOp) (w : WorkItem.t) :
  World.apply_patch (a ++ b) w = World.apply_patch b (World.apply_patch a w).
Proof. apply fold_left_app. Qed.

Lemma apply_patch_kind (patchDoc : list PatchOp) (w : WorkItem.t) :
  WorkItem.TeamProject (World.apply_patch patchDoc w) = WorkItem.TeamProject w
  /\ WorkItem.WorkItemType (World.apply_patch patchDoc w)
     = WorkItem.WorkItemType w
  /\ WorkItem.id (World.apply_patch patchDoc w) = WorkItem.id w.
Proof.
  revert w. induction patchDoc as [|o l IH]; intros w; [now repeat split|].
  unfold World.apply_patch in *. cbn [fold_left].
  destruct (IH (World.apply_op o w)) as (H1 & H2 & H3).
  rewrite H1, H2, H3. now repeat split.
Qed.

Lemma apply_patch_other_Tags (patchDoc : list PatchOp) (w : WorkItem.t) :
  Forall (fun o => (path o =? f_Tags)%string = false) patchDoc ->
  WorkItem.Tags (World.apply_patch patchDoc w) = WorkItem.Tags w.
Proof.
  intros H. revert w. induction H as [|o l Ho _ IH]; intros w; [reflexivity|].
  unfold World.apply_patch in *. cbn [fold_left]. rewrite IH.
  unfold World.apply_op. cbn [WorkItem.Tags]. now rewrite Ho.
Qed.

Lemma apply_op_Tags (o : PatchOp) (w : WorkItem.t) :
  WorkItem.Tags (World.apply_op o w)
  = if (path o =? f_Tags)%string then
      match op o, WorkItem.Tags w,
            match op o with remove => None | _ => World.str_of (value o) end
      with
      | add, Some old, Some new => Some (old ++ new)%string
      | _, _, v => v
      end
    else WorkItem.Tags w.
Proof.
  unfold World.apply_op. cbn [WorkItem.Tags].
  destruct (path o =? f_Tags)%string; [|reflexivity].
  destruct (op o), (WorkItem.Tags w), (World.str_of (value o)); reflexivity.
Qed.

Lemma createWorkItem_patchDoc_split makeHtml config issue :
  exists post,
    createWorkItem_patchDoc makeHtml config issue
    = (firstn 4 (createWorkItem_patchDoc makeHtml config issue)
       ++ add_str f_Tags
            (createLabels
               ("GitHub Issue #" ++ JsString.of_Z (Issue.number issue)
                ++ ";GitHub Repo: "
                ++ Repository.full_name (Config.repository config) ++ ";")
               (Issue.labels issue))
       :: post)%list
    /\ Forall (fun o => (path o =? f_Tags)%string = false)
         (firstn 4 (createWorkItem_patchDoc makeHtml config issue))
    /\ Forall (fun o => (path o =? f_Tags)%string = false) post.
Proof.
  unfold createWorkItem_patchDoc.
  destruct (truthy_opt (getAssignee config true));
    destruct (truthy_opt (Ado.areaPath (Config.ado config)));
    destruct (truthy_opt (Ado.iterationPath (Config.ado config)));
    destruct (Ado.bypassRules (Config.ado config));
    cbn [firstn app]; eexists; (split; [reflexivity|]);
    split; repeat constructor.
Qed.

(** The tag field of a created work item is the tag string of the patch. *)
Lemma created_item_Tags makeHtml config issue w :
  WorkItem.Tags (created_item makeHtml config issue w)
  = Some (createLabels
            ("GitHub Issue #" ++ JsString.of_Z (Issue.number issue)
             ++ ";GitHub Repo: "
             ++ Repository.full_name (Config.repository config) ++ ";")
            (Issue.labels issue)).
Proof.
  unfold created_item. cbn [World.touch WorkItem.Tags].
  destruct (createWorkItem_patchDoc_split makeHtml config issue)
    as (post & -> & Hpre & Hpost).
  rewrite apply_patch_app.
  change (World.apply_patch (?o :: post) ?x)
    with (World.apply_patch post (World.apply_op o x)).
  rewrite (apply_patch_other_Tags _ _ Hpost), apply_op_Tags.
  rewrite (apply_patch_other_Tags _ _ Hpre).
  reflexivity.
Qed.

Lemma createLabels_seed (seed : string) labels :
  exists rest, createLabels seed labels = (seed ++ rest)%string.
Proof.
  destruct labels as [ls|]; cbn [createLabels];
    [|exists ""%string; now rewrite append_nil_r].
  revert seed. induction ls as [|l ls IH]; intros seed; cbn [fold_left].
  - exists ""%string. now rewrite append_nil_r.
  - destruct (IH (seed ++ "GitHub Label: " ++ JsString.of_opt (Label.name l) ++ ";")%string)
      as [rest ->].
    eexists. rewrite append_assoc. reflexivity.
Qed.

(** The locator query of an issue selects the work item created for it. *)
Lemma created_item_matches makeHtml config issue w :
  World.matches
    (ByIssue (Ado.wit (Config.ado config))
       ("GitHub Issue #" ++ JsString.of_Z (Issue.number issue))
       ("GitHub Repo: " ++ Repository.full_name (Config.repository config)))
    (Ado.project (Config.ado config))
    (created_item makeHtml config issue w) = true.
Proof.
  unfold World.matches, World.has_tag. rewrite created_item_Tags.
  unfold created_item. cbn [World.touch WorkItem.TeamProject WorkItem.WorkItemType].
  destruct (apply_patch_kind (createWorkItem_patchDoc makeHtml config issue)
              (World.blank (World.fresh_id (World.items w))
                 (Ado.project (Config.ado config)) (Ado.wit (Config.ado config))))
    as (-> & -> & _).
  cbn [World.blank WorkItem.TeamProject WorkItem.WorkItemType].
  rewrite !String.eqb_refl. cbn [andb].
  destruct (createLabels_seed
              ("GitHub Issue #" ++ JsString.of_Z (Issue.number issue)
               ++ ";GitHub Repo: "
               ++ Repository.full_name (Config.repository config) ++ ";")
              (Issue.labels issue)) as [rest ->].
  apply andb_true_iff. split.
  - replace (("GitHub Issue #" ++ JsString.of_Z (Issue.number issue)
              ++ ";GitHub Repo: "
              ++ Repository.full_name (Config.repository config) ++ ";")
             ++ rest)%string
      with (("GitHub Issue #" ++ JsString.of_Z (Issue.number issue))
            ++ (";GitHub Repo: "
                ++ Repository.full_name (Config.repository config) ++ ";"
                ++ rest))%string
      by str_norm.
    apply includes_prefix, prefix_append.
  - replace (("GitHub Issue #" ++ JsString.of_Z (Issue.number issue)
              ++ ";GitHub Repo: "
              ++ Repository.full_name (Config.repository config) ++ ";")
             ++ rest)%string
      with (("GitHub Issue #" ++ JsString.of_Z (Issue.number issue) ++ ";")
            ++ ("GitHub Repo: "
                ++ Repository.full_name (Config.repository config))
            ++ (";" ++ rest))%string
      by str_norm.
    apply includes_append.
Qed.


(** The locator against the reference model. *)
Lemma getWorkItem_world config issue (w : World.t) :
  healthy w -> Config.issue config = Some issue ->
  final (exec World.handle (getWorkItem config false) w) = w
  /\ out (exec World.handle (getWorkItem config false) w)
     = Resolved
         match World.counterparts config issue w with
         | [] => Null
         | x :: _ => of_nullable (World.lookup (WorkItem.id x) (World.items w))
         end.
Proof.
  intros (Hc & Hq & Hf) Hi.
  unfold getWorkItem, getConnection. cbn [exec World.handle fst snd].
  rewrite Hc, Hi. cbn [need bind].
  unfold query_workItems, await, perform.
  cbn [bind try_catch exec World.handle fst snd].
  rewrite Hq. cbn [bind try_catch exec out final trace].
  unfold World.counterparts.
  rewrite (filter_ext _
             (World.matches
                (ByIssue (Ado.wit (Config.ado config))
                   ("GitHub Issue #" ++ JsString.of_Z (Issue.number issue))
                   ("GitHub Repo: "
                    ++ Repository.full_name (Config.repository config)))
                (Ado.project (Config.ado config))))
    by (intros a; cbn [World.recent]; apply andb_true_r).
  destruct (filter _ (World.items w)) as [|x l]; cbn [map].
  - cbn [exec out final]. now split.
  - cbn [bind try_catch exec World.handle fst snd out final]. rewrite Hf.
    cbn [bind try_catch exec out final]. now split.
Qed.


Lemma lookup_In (x : WorkItem.t) (l : list WorkItem.t) :
  In x l -> exists y, World.lookup (WorkItem.id x) l = Some y.
Proof.
  unfold World.lookup. induction l as [|a l IH]; intros H; [contradiction|].
  cbn [find]. destruct (WorkItem.id a =? WorkItem.id x) eqn:E.
  - now exists a.
  - destruct H as [->|H]; [|now apply IH].
    rewrite Z.eqb_refl in E. discriminate.
Qed.

Lemma reads_only_no_write (l : list event) :
  Forall (on_call reads_only) l -> existsb is_mirror_write l = false.
Proof.
  induction 1 as [|e l He _ IH]; [reflexivity|].
  cbn [existsb]. rewrite IH, orb_false_r.
  destruct e as [X c x]. destruct c; simpl in *; try reflexivity; contradiction.
Qed.

(** Where the locator resolves to a work item, [createWorkItem] resolves
    to [0], leaves the services as the locator left them, and writes
    nothing. *)
Lemma createWorkItem_located makeHtml config (S : Type) (h : Handler S) (s : S)
      item :
  out (exec h (getWorkItem config false) s) = Resolved (Item item) ->
  out (exec h (createWorkItem makeHtml config false) s) = Resolved (Num 0)
  /\ existsb is_mirror_write
       (trace (exec h (createWorkItem makeHtml config false) s)) = false
  /\ final (exec h (createWorkItem makeHtml config false) s)
     = final (exec h (getWorkItem config false) s).
Proof.
  intros H. unfold createWorkItem. rewrite exec_bind, H.
  cbn [truthy exec out final trace]. rewrite app_nil_r.
  repeat split.
  apply reads_only_no_write, AllCalls_trace, getWorkItem_reads_only.
Qed.

Lemma createWorkItem_world_found makeHtml config issue (w : World.t) x l :
  healthy w -> Config.issue config = Some issue ->
  World.counterparts config issue w = x :: l ->
  out (exec World.handle (createWorkItem makeHtml config false) w)
  = Resolved (Num 0)
  /\ existsb is_mirror_write
       (trace (exec World.handle (createWorkItem makeHtml config false) w))
     = false
  /\ final (exec World.handle (createWorkItem makeHtml config false) w) = w.
Proof.
  intros Hw Hi Hc.
  destruct (getWorkItem_world config issue w Hw Hi) as [Hf Ho].
  rewrite Hc in Ho.
  assert (Hx : In x (World.items w)).
  { assert (H : In x (World.counterparts config issue w))
      by (rewrite Hc; now left).
    unfold World.counterparts in H. now apply filter_In in H. }
  destruct (lookup_In x (World.items w) Hx) as [y Hy].
  rewrite Hy in Ho. cbn [of_nullable] in Ho.
  destruct (createWorkItem_located makeHtml config World.t World.handle w y Ho)
    as (H1 & H2 & H3).
  rewrite H3, Hf. now repeat split.
Qed.

Lemma createWorkItem_world_new makeHtml config issue (w : World.t) :
  healthy w -> Config.issue config = Some issue ->
  World.counterparts config issue w = [] ->
  final (exec World.handle (createWorkItem makeHtml config false) w)
  = World.with_items w
      (World.items w ++ [created_item makeHtml config issue w])%list.
Proof.
  intros Hw Hi Hc.
  destruct (getWorkItem_world config issue w Hw Hi) as [Hf Ho].
  rewrite Hc in Ho. destruct Hw as (Hcd & Hq & Hfd).
  unfold createWorkItem. rewrite exec_bind, Ho, Hf, Hi.
  cbn [truthy need bind]. unfold await, getConnection.
  cbn [bind try_catch exec World.handle fst snd final]. rewrite Hcd.
  cbn [bind try_catch exec World.handle fst snd final].
  reflexivity.
Qed.

(** C1: where the locator resolves to a work item, [createWorkItem] issues
    no write to the mirror service and resolves to [0]; and against the
    reference model of the mirror service, with at most one counterpart of
    the issue to begin with, two calls of [createWorkItem] in a row leave
    exactly one counterpart: the second call resolves to [0], writes
    nothing and leaves the service as the first call left it. *)
Theorem createWorkItem_idempotent :
  (forall makeHtml config (S : Type) (h : Handler S) (s : S) item,
      out (exec h (getWorkItem config false) s) = Resolved (Item item) ->
      out (exec h (createWorkItem makeHtml config false) s) = Resolved (Num 0)
      /\ existsb is_mirror_write
           (trace (exec h (createWorkItem makeHtml config false) s)) = false)
  /\ (forall makeHtml config issue (w : World.t),
         healthy w ->
         Config.issue config = Some issue ->
         (List.length (World.counterparts config issue w) <= 1)%nat ->
         let first :=
           exec World.handle (createWorkItem makeHtml config false) w in
         let second :=
           exec World.handle (createWorkItem makeHtml config false)
             (final first) in
         out second = Resolved (Num 0)
         /\ existsb is_mirror_write (trace second) = false
         /\ final second = final first
         /\ List.length (World.counterparts config issue (final second)) = 1%nat).
Proof.
  split.
  - intros makeHtml config S h s item H.
    destruct (createWorkItem_located makeHtml config S h s item H)
      as (H1 & H2 & _).
    now split.
  - intros makeHtml config issue w Hw Hi Hlen first second.
    assert (Hfirst : healthy (final first)
                     /\ exists x, World.counterparts config issue (final first)
                                  = [x]).
    { subst first second.
      destruct (World.counterparts config issue w) as [|x [|y l]] eqn:Hc.
      - rewrite (createWorkItem_world_new makeHtml config issue w Hw Hi Hc).
        split; [exact Hw|].
        exists (created_item makeHtml config issue w).
        unfold World.counterparts in *. cbn [World.with_items World.items].
        rewrite filter_app, Hc. cbn [filter app].
        now rewrite created_item_matches.
      - destruct (createWorkItem_world_found makeHtml config issue w x []
                    Hw Hi Hc) as (_ & _ & ->).
        split; [exact Hw | now exists x].
      - cbn [List.length] in Hlen. lia. }
    destruct Hfirst as (Hw1 & x & Hx).
    destruct (createWorkItem_world_found makeHtml config issue (final first)
                x [] Hw1 Hi Hx) as (H1 & H2 & H3).
    subst second. rewrite H1, H2, H3, Hx. now repeat split.
Qed.


Lemma createWorkItem_idempotent_witness :
  (out (exec World.handle (createWorkItem Sample.makeHtml Sample.opened42 false)
          Sample.world_synced) = Resolved (Num 0)
   /\ existsb is_mirror_write
        (trace (exec World.handle
                  (createWorkItem Sample.makeHtml Sample.opened42 false)
                  Sample.world_synced)) = false)
  /\ (let first :=
        exec World.handle (createWorkItem Sample.makeHtml Sample.opened42 false)
          Sample.world_empty in
      let second :=
        exec World.handle (createWorkItem Sample.makeHtml Sample.opened42 false)
          (final first) in
      out second = Resolved (Num 0)
      /\ existsb is_mirror_write (trace second) = false
      /\ final second = final first
      /\ List.length
           (World.counterparts Sample.opened42 Sample.issue42 (final second))
         = 1%nat).
Proof.
  split.
  - apply (proj1 createWorkItem_idempotent Sample.makeHtml Sample.opened42
             World.t World.handle Sample.world_synced Sample.item7).
    reflexivity.
  - apply (proj2 createWorkItem_idempotent Sample.makeHtml Sample.opened42
             Sample.issue42 Sample.world_empty).
    + repeat split.
    + reflexivity.
    + cbn. lia.
Defined.

(** ** Failures of the locator *)

(** A failed connection or a failed query is answered by marking the
    action failed and resolving to [-1], without a write. *)
Lemma getWorkItem_failure config (S : Type) (h : Handler S) (s : S) :
  (exists e, fst (h _ (getConnection config) s) = inl e)
  \/ (Config.issue config <> None
      /\ fst (h _ (getConnection config) s) = inr tt
      /\ forall q project,
           exists e, fst (h _ (queryByWiql q project)
                            (snd (h _ (getConnection config) s))) = inl e) ->
  out (exec h (getWorkItem config false) s) = Resolved v_minus_one
  /\ existsb is_setFailed (trace (exec h (getWorkItem config false) s)) = true
  /\ existsb is_mirror_write (trace (exec h (getWorkItem config false) s))
     = false.
Proof.
  intros H. split; [|split];
    [| |apply reads_only_no_write, AllCalls_trace, getWorkItem_reads_only].
  - unfold getWorkItem. cbn [exec out].
    destruct H as [[e ->]|(Hi & -> & Hq)]; [reflexivity|].
    destruct (Config.issue config) as [issue|]; [|now destruct Hi].
    cbn [need bind]. unfold query_workItems, await, perform.
    cbn [bind try_catch exec out].
    match goal with
    | |- context [h _ (queryByWiql ?q ?p) ?s'] => destruct (Hq q p) as [e ->]
    end.
    reflexivity.
  - unfold getWorkItem. cbn [exec trace].
    destruct H as [[e ->]|(Hi & -> & Hq)]; [reflexivity|].
    destruct (Config.issue config) as [issue|]; [|now destruct Hi].
    cbn [need bind]. unfold query_workItems, await, perform.
    cbn [bind try_catch exec trace existsb is_setFailed orb].
    match goal with
    | |- context [h _ (queryByWiql ?q ?p) ?s'] => destruct (Hq q p) as [e ->]
    end.
    reflexivity.
Qed.

(** C6 does not hold of the code: the error result [-1] of the locator is
    not told apart from a work item by the operations that call it.
    [createWorkItem] then resolves to [0], its answer for a work item that
    exists already, and [updateWorkItem], where the connection can be
    opened again, sends its patch document in an update call whose
    work-item id is [undefined]. *)
Theorem locator_failure_taken_as_found makeHtml config patchDoc
        (S : Type) (h : Handler S) (s : S) :
  out (exec h (getWorkItem config false) s) = Resolved v_minus_one ->
  out (exec h (createWorkItem makeHtml config false) s) = Resolved (Num 0)
  /\ (fst (h _ (getConnection config)
             (final (exec h (getWorkItem config false) s))) = inr tt ->
      existsb is_update_without_id
        (trace (exec h (updateWorkItem makeHtml config patchDoc) s)) = true).
Proof.
  intros H. split.
  - unfold createWorkItem. rewrite exec_bind, H. reflexivity.
  - intros Hc. unfold updateWorkItem. rewrite exec_bind, H.
    cbn [v_minus_one truthy Z.eqb negb out final trace].
    rewrite existsb_app. apply orb_true_iff. right.
    unfold submit_update, await. cbn [bind try_catch exec trace].
    rewrite Hc. cbn [bind try_catch id_of exec trace existsb is_update_without_id].
    apply orb_true_r.
Qed.

Lemma locator_failure_taken_as_found_witness :
  out (exec World.handle (getWorkItem Sample.opened42 false)
         Sample.world_query_down) = Resolved v_minus_one
  /\ out (exec World.handle
            (createWorkItem Sample.makeHtml Sample.opened42 false)
            Sample.world_query_down) = Resolved (Num 0)
  /\ existsb is_update_without_id
       (trace (exec World.handle
                 (updateWorkItem Sample.makeHtml Sample.opened42
                    (closeWorkItem_patchDoc Sample.opened42 Sample.issue42))
                 Sample.world_query_down)) = true.
Proof.
  split; [reflexivity|].
  destruct (locator_failure_taken_as_found Sample.makeHtml Sample.opened42
              (closeWorkItem_patchDoc Sample.opened42 Sample.issue42)
              World.t World.handle Sample.world_query_down eq_refl)
    as [H1 H2].
  split; [exact H1 | apply H2; reflexivity].
Defined.

(** The same on full runs of [performWork] while the query is rejected:
    an [opened] event resolves to [0]; a [closed] event marks the action
    failed and still sends an update call without a work-item id. *)
Example performWork_query_down :
  out (exec World.handle
         (performWork Sample.makeHtml Sample.makeMarkdown Sample.opened42)
         Sample.world_query_down) = Resolved (Num 0)
  /\ existsb is_update_without_id
       (trace (exec World.handle
                 (performWork Sample.makeHtml Sample.makeMarkdown
                    (Sample.event_on "closed" Sample.issue42_closed))
                 Sample.world_query_down)) = true
  /\ World.failed
       (final (exec World.handle
                 (performWork Sample.makeHtml Sample.makeMarkdown
                    (Sample.event_on "closed" Sample.issue42_closed))
                 Sample.world_query_down)) = true.
Proof. repeat split. Qed.

(** * Further properties of the engine *)

(** ** Bounds on the calls of a program *)

Lemma AtMost_mono (f : forall X : Type, call X -> bool) A (p : Prog A) :
  forall n m, (n <= m)%nat -> AtMost f p n -> AtMost f p m.
Proof.
  induction p as [a|e|X c k IH]; intros n m Hle; cbn [AtMost]; auto.
  destruct (f X c).
  - destruct n as [|n]; [contradiction|].
    destruct m as [|m]; [lia|].
    intros H x. apply (IH x n m); [lia | apply H].
  - intros H x. apply (IH x n m Hle), H.
Qed.

Lemma AtMost_bind (f : forall X : Type, call X -> bool) A B
      (p : Prog A) (k : A -> Prog B) (m : nat) :
  (forall a, AtMost f (k a) m) ->
  forall n, AtMost f p n -> AtMost f (bind p k) (n + m).
Proof.
  intros Hk. induction p as [a|e|X c q IH]; intros n; cbn [AtMost bind].
  - intros _. apply (AtMost_mono f _ (k a) m); [lia | apply Hk].
  - auto.
  - destruct (f X c).
    + destruct n as [|n]; [contradiction|].
      intros H x. apply (IH x n), H.
    + intros H x. apply (IH x n), H.
Qed.

Lemma AtMost_try_catch (f : forall X : Type, call X -> bool) A
      (p : Prog A) (h : exc -> Prog A) (m : nat) :
  (forall e, AtMost f (h e) m) ->
  forall n, AtMost f p n -> AtMost f (try_catch p h) (n + m).
Proof.
  intros Hh. induction p as [a|e|X c q IH]; intros n; cbn [AtMost try_catch].
  - auto.
  - intros _. apply (AtMost_mono f _ (h e) m); [lia | apply Hh].
  - destruct (f X c).
    + destruct n as [|n]; [contradiction|].
      intros H x. apply (IH x n), H.
    + intros H x. apply (IH x n), H.
Qed.

Lemma AtMost_none (f : forall X : Type, call X -> bool)
      (P : forall X : Type, call X -> Prop) A (p : Prog A) :
  (forall X (c : call X), P X c -> f X c = false) ->
  AllCalls P p -> forall n, AtMost f p n.
Proof.
  intros HP. induction p as [a|e|X c k IH]; cbn [AtMost AllCalls]; auto.
  intros [Hc Hk] n. rewrite (HP X c Hc). intros x. now apply IH.
Qed.

Lemma AtMost_trace (f : forall X : Type, call X -> bool) (S A : Type)
      (h : Handler S) (p : Prog A) :
  forall n s, AtMost f p n ->
              (List.length (filter (counts f) (trace (exec h p s))) <= n)%nat.
Proof.
  induction p as [a|e|X c k IH]; intros n s; cbn [AtMost exec trace filter];
    try (cbn; lia).
  cbn [counts]. destruct (f X c).
  - destruct n as [|n]; [contradiction|].
    intros H. cbn [List.length]. apply le_n_S, IH, H.
  - intros H. apply IH, H.
Qed.

Lemma filter_counts_creates (l : list event) :
  filter is_create l = filter (counts creates) l.
Proof.
  apply filter_ext. intros [X c x]. now destruct c.
Qed.

Lemma filter_counts_updates (l : list event) :
  filter is_update l = filter (counts updates) l.
Proof.
  apply filter_ext. intros [X c x]. now destruct c.
Qed.

Lemma filter_counts_origin_updates (l : list event) :
  filter is_origin_update l = filter (counts origin_updates) l.
Proof.
  apply filter_ext. intros [X c x]. now destruct c.
Qed.

Lemma reads_only_creates X (c : call X) :
  @reads_only X c -> @creates X c = false.
Proof. destruct c; simpl; tauto. Qed.

Lemma reads_only_updates X (c : call X) :
  @reads_only X c -> @updates X c = false.
Proof. destruct c; simpl; tauto. Qed.

Lemma existsb_filter_nil {A : Type} (f : A -> bool) (l : list A) :
  existsb f l = false <-> filter f l = [].
Proof.
  induction l as [|a l IH]; cbn [existsb filter]; [tauto|].
  destruct (f a); cbn [orb]; [split; discriminate | exact IH].
Qed.


Lemma AllCalls_existsb (P : forall X : Type, call X -> Prop)
      (f : event -> bool) (S A : Type) (h : Handler S) (p : Prog A) :
  AllCalls P p -> (forall e, on_call P e -> f e = false) ->
  forall s, existsb f (trace (exec h p s)) = false.
Proof.
  intros H Hf s. apply existsb_filter_nil.
  now apply (AllCalls_filter P f h p).
Qed.

Lemma mirror_only_no_origin (e : event) :
  on_call mirror_only e -> is_origin_call e = false.
Proof. destruct e as [X c x]. destruct c; simpl; tauto. Qed.

Lemma reads_only_no_mirror_write (e : event) :
  on_call reads_only e -> is_mirror_write e = false.
Proof. destruct e as [X c x]. destruct c; simpl; tauto. Qed.

Lemma getWorkItem_mirror_only config skipQuery :
  AllCalls mirror_only (getWorkItem config skipQuery).
Proof.
  unfold getWorkItem, query_workItems. destruct skipQuery; calls; exact I.
Qed.

(** ** The locator *)

(** X1: The locator only reads: whatever the services answer, it issues no
    create or update call to the mirror service and no call to the origin
    issue service; with [skipQuery] set it issues no call at all and
    resolves to [null]. *)
Theorem getWorkItem_never_writes config skipQuery (S : Type) (h : Handler S)
        (s : S) :
  existsb is_mirror_write (trace (exec h (getWorkItem config skipQuery) s))
  = false
  /\ existsb is_origin_call (trace (exec h (getWorkItem config skipQuery) s))
     = false
  /\ exec h (getWorkItem config true) s
     = {| out := Resolved Null; final := s; trace := [] |}.
Proof.
  repeat split.
  - apply (AllCalls_existsb reads_only);
      [apply getWorkItem_reads_only | apply reads_only_no_mirror_write].
  - apply (AllCalls_existsb mirror_only);
      [apply getWorkItem_mirror_only | apply mirror_only_no_origin].
Qed.

(** Runs a program through every answer the services can give. *)
Ltac answers :=
  repeat (cbn [exec bind try_catch await perform need of_nullable
               out final trace fst snd];
          match goal with
          | |- context [match ?x with _ => _ end] =>
              lazymatch x with
              | context [exec] => fail
              | _ => destruct x
              end
          end);
  cbn [exec bind try_catch await perform need of_nullable
       out final trace fst snd].

(** X2: The locator resolves to [-1] exactly when it has marked the action
    failed; it resolves to no other number; and it rejects only through the
    read of [config.issue.number] when the configuration has no issue. *)
Theorem getWorkItem_error_iff_failed config (S : Type) (h : Handler S) (s : S) :
  (out (exec h (getWorkItem config false) s) = Resolved v_minus_one
   <-> existsb is_setFailed (trace (exec h (getWorkItem config false) s))
       = true)
  /\ match out (exec h (getWorkItem config false) s) with
     | Resolved (Num n) => n = -1
     | Resolved _ => True
     | Rejected e => e = TypeError /\ Config.issue config = None
     end.
Proof.
  unfold getWorkItem, getConnection, query_workItems, v_minus_one, need,
    of_nullable.
  answers; cbn [existsb is_setFailed orb]; repeat split;
    try discriminate; try reflexivity; auto.
Qed.


(** ** The executor *)

Lemma getWorkItem_AtMost (f : forall X : Type, call X -> bool) config skipQuery :
  (forall X (c : call X), @reads_only X c -> f X c = false) ->
  AtMost f (getWorkItem config skipQuery) 0.
Proof.
  intros H. apply (AtMost_none f reads_only); [exact H|].
  apply getWorkItem_reads_only.
Qed.

Lemma createWorkItem_AtMost_creates makeHtml config skipQuery :
  AtMost creates (createWorkItem makeHtml config skipQuery) 1.
Proof.
  unfold createWorkItem. change 1%nat with (0 + 1)%nat.
  apply AtMost_bind; [|apply getWorkItem_AtMost, reads_only_creates].
  intros workItem. unfold need, getConnection, await, perform.
  destruct (truthy workItem); [exact I|].
  destruct (Config.issue config); [|exact I].
  cbn [bind try_catch AtMost creates]. intros [e|[]]; [exact I|].
  cbn [bind try_catch AtMost creates]. intros [e|[w|]];
    cbn [bind try_catch AtMost creates]; auto.
Qed.

Lemma createWorkItem_AtMost_updates makeHtml config skipQuery :
  AtMost updates (createWorkItem makeHtml config skipQuery) 0.
Proof.
  apply (AtMost_none updates (updates_with (fun _ => False))).
  - intros X c. destruct c; simpl; tauto.
  - apply createWorkItem_no_update.
Qed.

Lemma submit_update_AtMost_updates config patchDoc workItem :
  AtMost updates (submit_update config patchDoc workItem) 1.
Proof.
  unfold submit_update, getConnection, await, perform, need, id_of.
  cbn [bind try_catch AtMost updates]. intros [e|[]]; [exact I|].
  destruct workItem; cbn [bind try_catch AtMost updates]; auto;
    intros [e|[w'|]]; cbn [bind try_catch AtMost updates]; auto.
Qed.

Lemma submit_update_AtMost_creates config patchDoc workItem :
  AtMost creates (submit_update config patchDoc workItem) 0.
Proof.
  apply (AtMost_none creates (creates_with (fun _ => False))).
  - intros X c. destruct c; simpl; tauto.
  - unfold submit_update, id_of. calls; simpl; auto.
Qed.

(** X3: Whatever the services answer, [createWorkItem] issues at most one
    create call and no update call, and a run that resolves to [0] has
    issued no create call. *)
Theorem createWorkItem_write_bounds makeHtml config skipQuery
        (S : Type) (h : Handler S) (s : S) :
  (List.length
     (filter is_create
        (trace (exec h (createWorkItem makeHtml config skipQuery) s))) <= 1)%nat
  /\ filter is_update
       (trace (exec h (createWorkItem makeHtml config skipQuery) s)) = []
  /\ match out (exec h (createWorkItem makeHtml config skipQuery) s) with
     | Resolved (Num 0) =>
         filter is_create
           (trace (exec h (createWorkItem makeHtml config skipQuery) s)) = []
     | _ => True
     end.
Proof.
  split; [|split].
  - rewrite filter_counts_creates.
    apply AtMost_trace, createWorkItem_AtMost_creates.
  - rewrite filter_counts_updates.
    pose proof (AtMost_trace updates S _ h
                  (createWorkItem makeHtml config skipQuery) 0 s
                  (createWorkItem_AtMost_updates makeHtml config skipQuery)) as H.
    destruct (filter _ _); [reflexivity | cbn in H; lia].
  - unfold createWorkItem. rewrite exec_bind.
    pose proof (AllCalls_filter reads_only is_create h
                  (getWorkItem config skipQuery)
                  (getWorkItem_reads_only config skipQuery)) as Hg.
    assert (Hr : forall e, on_call reads_only e -> is_create e = false).
    { intros [X c x]. destruct c; simpl; tauto. }
    specialize (Hg Hr s).
    destruct (exec h (getWorkItem config skipQuery) s) as [go gf gt].
    cbn [out final trace] in *.
    destruct go as [workItem|e]; [|exact I].
    destruct (truthy workItem).
    + cbn [exec out trace]. now rewrite app_nil_r.
    + unfold need, getConnection, await, perform, v_minus_one.
      answers; exact I.
Qed.

(** X4: Whatever the services answer, [updateWorkItem] issues at most one
    update call, and at most one create call, none when [autoCreate] is
    off. *)
Theorem updateWorkItem_write_bounds makeHtml config patchDoc
        (S : Type) (h : Handler S) (s : S) :
  (List.length
     (filter is_update
        (trace (exec h (updateWorkItem makeHtml config patchDoc) s))) <= 1)%nat
  /\ (List.length
        (filter is_create
           (trace (exec h (updateWorkItem makeHtml config patchDoc) s)))
      <= if Ado.autoCreate (Config.ado config) then 1 else 0)%nat.
Proof.
  split.
  - rewrite filter_counts_updates. apply AtMost_trace.
    unfold updateWorkItem. change 1%nat with (0 + 1)%nat.
    apply AtMost_bind; [|apply getWorkItem_AtMost, reads_only_updates].
    intros workItem.
    destruct (negb (truthy workItem));
      [|apply submit_update_AtMost_updates].
    destruct (Ado.autoCreate (Config.ado config)); [|exact I].
    change 1%nat with (0 + 1)%nat.
    apply AtMost_bind; [|apply createWorkItem_AtMost_updates].
    intros created. apply submit_update_AtMost_updates.
  - rewrite filter_counts_creates. apply AtMost_trace.
    unfold updateWorkItem.
    change (if Ado.autoCreate (Config.ado config) then 1 else 0)%nat
      with (0 + (if Ado.autoCreate (Config.ado config) then 1 else 0))%nat.
    apply AtMost_bind; [|apply getWorkItem_AtMost, reads_only_creates].
    intros workItem.
    destruct (negb (truthy workItem)).
    + destruct (Ado.autoCreate (Config.ado config)); [|exact I].
      change 1%nat with (1 + 0)%nat.
      apply AtMost_bind; [|apply createWorkItem_AtMost_creates].
      intros created. apply submit_update_AtMost_creates.
    + apply (AtMost_mono creates _ _ 0); [lia|].
      apply submit_update_AtMost_creates.
Qed.

(** X5: Where the locator finds no work item and [autoCreate] is off,
    [updateWorkItem] resolves to [0] and writes nothing to the mirror
    service. *)
Theorem updateWorkItem_not_found_skips makeHtml config patchDoc
        (S : Type) (h : Handler S) (s : S) :
  out (exec h (getWorkItem config false) s) = Resolved Null ->
  Ado.autoCreate (Config.ado config) = false ->
  out (exec h (updateWorkItem makeHtml config patchDoc) s) = Resolved (Num 0)
  /\ existsb is_mirror_write
       (trace (exec h (updateWorkItem makeHtml config patchDoc) s)) = false
  /\ final (exec h (updateWorkItem makeHtml config patchDoc) s)
     = final (exec h (getWorkItem config false) s).
Proof.
  intros Hg Ha. unfold updateWorkItem. rewrite exec_bind, Hg, Ha.
  cbn [truthy negb exec out final trace]. rewrite app_nil_r.
  repeat split.
  apply reads_only_no_write, AllCalls_trace, getWorkItem_reads_only.
Qed.

Lemma updateWorkItem_not_found_skips_witness :
  out (exec World.handle
         (updateWorkItem Sample.makeHtml
            (Sample.event_on "closed" Sample.issue42)
            (closeWorkItem_patchDoc (Sample.event_on "closed" Sample.issue42)
               Sample.issue42))
         Sample.world_empty) = Resolved (Num 0)
  /\ World.items
       (final (exec World.handle
                 (updateWorkItem Sample.makeHtml
                    (Sample.event_on "closed" Sample.issue42)
                    (closeWorkItem_patchDoc
                       (Sample.event_on "closed" Sample.issue42)
                       Sample.issue42))
                 Sample.world_empty)) = [].
Proof.
  destruct (updateWorkItem_not_found_skips Sample.makeHtml
              (Sample.event_on "closed" Sample.issue42)
              (closeWorkItem_patchDoc (Sample.event_on "closed" Sample.issue42)
                 Sample.issue42)
              World.t World.handle Sample.world_empty eq_refl eq_refl)
    as (H1 & _ & H3).
  split; [exact H1|]. rewrite H3. reflexivity.
Defined.


(** ** The entry point and the dispatch *)

Lemma try_catch_resolves (S A : Type) (h : Handler S) (p : Prog A)
      (k : exc -> A) :
  forall s, exists a,
      out (exec h (try_catch p (fun e => Ret (k e))) s) = Resolved a.
Proof.
  induction p as [a|e|X c q IH]; intros s; cbn [try_catch exec out].
  - now exists a.
  - now exists (k e).
  - apply IH.
Qed.

(** X6: [run] never rejects, whatever the configuration and the services: its
    handler takes every error.  For an issue whose node id starts with
    [PR_] it issues no call at all, exclude label or not. *)
Theorem run_total makeHtml makeMarkdown config (S : Type) (h : Handler S)
        (s : S) :
  out (exec h (run makeHtml makeMarkdown config) s) = Resolved tt
  /\ (forall issue,
         Config.issue config = Some issue ->
         starts_with_PR (Issue.node_id issue) = true ->
         exec h (run makeHtml makeMarkdown config) s
         = {| out := Resolved tt; final := s; trace := [] |}).
Proof.
  split.
  - unfold run.
    destruct (try_catch_resolves S unit h
                (if (starts_with_PR
                       match Config.issue config with
                       | Some i => Issue.node_id i
                       | None => None
                       end
                     || starts_with_PR
                          match Config.issue config with
                          | Some i => Issue.nodeId i
                          | None => None
                          end)%bool
                 then Ret tt
                 else performWork makeHtml makeMarkdown config ;;; Ret tt)
                (fun _ => tt) s) as [[] H].
    exact H.
  - intros issue Hi Hpr. unfold run. rewrite Hi, Hpr. reflexivity.
Qed.

Lemma run_total_witness :
  has_noado (Issue.labels Sample.pull7) = true
  /\ exec World.handle
       (run Sample.makeHtml Sample.makeMarkdown
          (Sample.event_on "created" Sample.pull7))
       Sample.world_synced
     = {| out := Resolved tt; final := Sample.world_synced; trace := [] |}.
Proof.
  split; [reflexivity|].
  apply (proj2 (run_total Sample.makeHtml Sample.makeMarkdown
                  (Sample.event_on "created" Sample.pull7)
                  World.t World.handle Sample.world_synced)
           Sample.pull7); reflexivity.
Defined.

(** X7: An event whose action is none of the ten that [performWork] knows, on
    an issue without the exclude label and outside a scheduled or manual
    run, issues no call and resolves to [null]. *)
Theorem performWork_other_action makeHtml makeMarkdown config :
  has_noado (match Config.issue config with
             | Some i => Issue.labels i
             | None => None
             end) = false ->
  (forall e, Config.action config <> Some (action_of e)) ->
  Config.schedule config = false ->
  Config.manual_trigger config = false ->
  performWork makeHtml makeMarkdown config = Ret Null.
Proof.
  intros Hl Ha Hs Hm.
  assert (Hno : forall e, is_action config (action_of e) = false).
  { intros e. unfold is_action, opt_eqb.
    destruct (Config.action config) as [a|] eqn:E; [|reflexivity].
    destruct (String.eqb_spec a (action_of e)) as [->|]; [|reflexivity].
    now destruct (Ha e). }
  unfold performWork. rewrite Hl, Hs, Hm.
  pose proof (Hno Create) as H1. pose proof (Hno Close) as H2.
  pose proof (Hno Delete) as H3. pose proof (Hno Reopen) as H4.
  pose proof (Hno Edit) as H5. pose proof (Hno Labeled) as H6.
  pose proof (Hno Unlabeled) as H7. pose proof (Hno Assign) as H8.
  pose proof (Hno Unassign) as H9. pose proof (Hno Commented) as H10.
  cbn [action_of] in *.
  rewrite H1, H2, H3, H4, H5, H6, H7, H8, H9, H10. reflexivity.
Qed.

Lemma performWork_other_action_witness :
  performWork Sample.makeHtml Sample.makeMarkdown
    (Sample.event_on "pinned" Sample.issue42) = Ret Null.
Proof.
  apply (performWork_other_action Sample.makeHtml Sample.makeMarkdown
           (Sample.event_on "pinned" Sample.issue42));
    try reflexivity.
  intros e. destruct e; discriminate.
Defined.


(** ** The two directions keep to their service *)

Lemma createWorkItem_mirror_only makeHtml config skipQuery :
  AllCalls mirror_only (createWorkItem makeHtml config skipQuery).
Proof.
  unfold createWorkItem. apply AllCalls_bind;
    [apply getWorkItem_mirror_only|].
  intros workItem. unfold getConnection. calls; exact I.
Qed.

Lemma updateWorkItem_mirror_only makeHtml config patchDoc :
  AllCalls mirror_only (updateWorkItem makeHtml config patchDoc).
Proof.
  assert (Hs : forall w, AllCalls mirror_only (submit_update config patchDoc w)).
  { intros w. unfold submit_update, id_of, getConnection. calls; exact I. }
  unfold updateWorkItem. apply AllCalls_bind;
    [apply getWorkItem_mirror_only|].
  intros workItem. destruct (negb (truthy workItem)); [|apply Hs].
  destruct (Ado.autoCreate (Config.ado config)); [|exact I].
  apply AllCalls_bind; [apply createWorkItem_mirror_only | exact Hs].
Qed.

Lemma handler_of_mirror_only makeHtml e config :
  AllCalls mirror_only (handler_of makeHtml e config).
Proof.
  assert (Hu : forall A (o : option A) (k : A -> list PatchOp),
             AllCalls mirror_only
               (x <- need o ;; updateWorkItem makeHtml config (k x))).
  { intros A o k. apply AllCalls_bind; [apply AllCalls_need|].
    intros x. apply updateWorkItem_mirror_only. }
  destruct e; cbn [handler_of];
    [ apply createWorkItem_mirror_only
    | apply Hu | apply Hu | apply Hu | apply Hu | | | apply Hu | apply Hu | ].
  - unfold labelWorkItem. apply AllCalls_bind; [apply AllCalls_need|].
    intros label. apply Hu.
  - unfold unlabelWorkItem. apply AllCalls_bind;
      [apply getWorkItem_mirror_only|].
    intros workItem. destruct (negb (truthy workItem)); [exact I|].
    apply AllCalls_bind.
    + unfold tags_of. destruct workItem; try exact I. apply AllCalls_need.
    + intros tags. apply AllCalls_bind; [apply AllCalls_need|].
      intros label. apply Hu.
  - unfold addComment. apply AllCalls_bind; [apply AllCalls_need|].
    intros comment. apply Hu.
Qed.

(** X8: Outside a scheduled or manual run, [performWork] never calls the origin
    issue service, whatever the event and whatever the services answer. *)
Theorem performWork_forward_mirror_only makeHtml makeMarkdown config
        (S : Type) (h : Handler S) (s : S) :
  Config.schedule config = false ->
  Config.manual_trigger config = false ->
  existsb is_origin_call
    (trace (exec h (performWork makeHtml makeMarkdown config) s)) = false.
Proof.
  intros Hs Hm.
  apply (AllCalls_existsb mirror_only); [|apply mirror_only_no_origin].
  unfold performWork. rewrite Hs, Hm. cbn [orb].
  destruct (has_noado _);
    [apply (handler_of_mirror_only makeHtml Delete config)|].
  apply AllCalls_bind; [|intros w; exact I].
  repeat match goal with
         | |- AllCalls _ (if ?x then _ else _) => destruct x
         end;
    first [ exact I
          | apply (handler_of_mirror_only makeHtml Create config)
          | apply (handler_of_mirror_only makeHtml Close config)
          | apply (handler_of_mirror_only makeHtml Delete config)
          | apply (handler_of_mirror_only makeHtml Reopen config)
          | apply (handler_of_mirror_only makeHtml Edit config)
          | apply (handler_of_mirror_only makeHtml Labeled config)
          | apply (handler_of_mirror_only makeHtml Unlabeled config)
          | apply (handler_of_mirror_only makeHtml Assign config)
          | apply (handler_of_mirror_only makeHtml Unassign config)
          | apply (handler_of_mirror_only makeHtml Commented config) ].
Qed.

Lemma performWork_forward_mirror_only_witness :
  existsb is_origin_call
    (trace (exec World.handle
              (performWork Sample.makeHtml Sample.makeMarkdown
                 (Sample.event_on "closed" Sample.issue42_closed))
              Sample.world_synced)) = false.
Proof.
  apply (performWork_forward_mirror_only Sample.makeHtml Sample.makeMarkdown
           (Sample.event_on "closed" Sample.issue42_closed)
           World.t World.handle Sample.world_synced); reflexivity.
Defined.

Lemma updateIssue_reads_only makeMarkdown config id :
  AllCalls reads_only (updateIssue makeMarkdown config id).
Proof. unfold updateIssue. calls; exact I. Qed.

Lemma forEach_detached_calls (P : forall X : Type, call X -> Prop)
      A B (f : A -> Prog B) (l : list A) :
  (forall a, AllCalls P (f a)) -> AllCalls P (forEach_detached f l).
Proof.
  intros Hf. induction l as [|a l IH]; cbn [forEach_detached]; [exact I|].
  apply AllCalls_bind; [|intros _; exact IH].
  apply AllCalls_try_catch; [|intros e; exact I].
  apply AllCalls_bind; [apply Hf | intros b; exact I].
Qed.

(** X9: The reverse pass never writes to the mirror service: whatever the
    services answer, [updateIssues] issues no create and no update call
    for a work item. *)
Theorem updateIssues_never_writes_mirror makeMarkdown config
        (S : Type) (h : Handler S) (s : S) :
  existsb is_mirror_write
    (trace (exec h (updateIssues makeMarkdown config) s)) = false.
Proof.
  apply (AllCalls_existsb reads_only); [|apply reads_only_no_mirror_write].
  unfold updateIssues, getConnection, query_workItems.
  apply AllCalls_Call; [exact I|]. intros [e|[]].
  - calls; exact I.
  - apply AllCalls_bind; [calls; exact I|].
    intros [v|workItems]; [exact I|].
    apply AllCalls_bind; [|intros _; exact I].
    apply forEach_detached_calls. intros id. apply updateIssue_reads_only.
Qed.

(** X10: For one work item the reverse pass fetches the origin issue at most
    once and updates it at most once, whatever the services answer. *)
Theorem updateIssue_write_bounds makeMarkdown config id
        (S : Type) (h : Handler S) (s : S) :
  (List.length
     (filter (counts origin_gets)
        (trace (exec h (updateIssue makeMarkdown config id) s))) <= 1)%nat
  /\ (List.length
        (filter is_origin_update
           (trace (exec h (updateIssue makeMarkdown config id) s))) <= 1)%nat.
Proof.
  split; [|rewrite filter_counts_origin_updates]; apply AtMost_trace;
    unfold updateIssue, await, need;
    destruct (truthy_opt (Config.github_token config));
    cbn [bind AtMost origin_gets origin_updates]; auto;
    intros [e|[wiObj|]]; cbn [bind AtMost]; auto;
    destruct (WorkItem.Tags wiObj) as [tags|]; cbn [bind AtMost]; auto;
    destruct (issue_number_of tags) as [n|]; cbn [bind AtMost]; auto;
    destruct (negb (JsString.truthy n));
    cbn [bind AtMost origin_gets origin_updates]; auto;
    intros [e|issue]; cbn [bind AtMost]; auto;
    destruct (fresher wiObj issue); cbn [bind AtMost]; auto;
    destruct (differs makeMarkdown config wiObj issue);
    cbn [bind AtMost origin_gets origin_updates]; auto;
    intros [e|r]; cbn [bind AtMost]; auto.
Qed.


(** ** Tags: written at creation, read back by both paths *)

Lemma includes_nil_l (s : string) : JsString.includes "" s = true.
Proof. destruct s; reflexivity. Qed.

Lemma includes_cons (p : string) (c : ascii) (s : string) :
  JsString.includes p s = true -> JsString.includes p (String c s) = true.
Proof. intros H. cbn [JsString.includes]. rewrite H. apply orb_true_r. Qed.

Lemma includes_app_r (p a b : string) :
  JsString.includes p a = true -> JsString.includes p (a ++ b) = true.
Proof.
  intros H. destruct (includes_inv p a H) as (x & y & ->).
  rewrite !append_assoc. apply includes_append.
Qed.

Lemma includes_char_cons (c x : ascii) (s : string) :
  JsString.includes (String c "") (String x s) = true
  <-> x = c \/ JsString.includes (String c "") s = true.
Proof.
  cbn [JsString.includes]. rewrite orb_true_iff.
  split; intros [H|H]; auto.
  - apply prefix_cons in H as [<- _]. now left.
  - left. apply prefix_cons. split; [now symmetry | apply prefix_nil].
Qed.

Lemma includes_char_cons_false (c x : ascii) (s : string) :
  JsString.includes (String c "") (String x s) = false
  <-> x <> c /\ JsString.includes (String c "") s = false.
Proof.
  rewrite <- !not_true_iff_false, includes_char_cons. tauto.
Qed.

Lemma includes_char_app (c : ascii) (a b : string) :
  JsString.includes (String c "") (a ++ b) = false
  <-> JsString.includes (String c "") a = false
      /\ JsString.includes (String c "") b = false.
Proof.
  induction a as [|x a IH]; cbn [append].
  - split; [intros H; split; [reflexivity | exact H] | tauto].
  - rewrite !includes_char_cons_false, IH. tauto.
Qed.

Lemma split_nonempty (sep : ascii) (s : string) : JsString.split sep s <> [].
Proof.
  destruct s as [|c s]; cbn [JsString.split]; [discriminate|].
  destruct (JsString.split sep s); [discriminate|].
  destruct (Ascii.eqb c sep); discriminate.
Qed.

(** A string without the separator is its own single piece. *)
Lemma split_whole (sep : ascii) (a : string) :
  JsString.includes (String sep "") a = false -> JsString.split sep a = [a].
Proof.
  induction a as [|x a IH]; intros H; [reflexivity|].
  apply includes_char_cons_false in H as [Hx Ha].
  cbn [JsString.split]. rewrite (IH Ha).
  destruct (Ascii.eqb_spec x sep); [contradiction | reflexivity].
Qed.

(** The first piece ends at the first separator. *)
Lemma split_first (sep : ascii) (a rest : string) :
  JsString.includes (String sep "") a = false ->
  JsString.split sep (a ++ String sep rest) = a :: JsString.split sep rest.
Proof.
  induction a as [|x a IH]; intros H; cbn [append JsString.split].
  - destruct (JsString.split sep rest) as [|h t] eqn:E;
      [now destruct (split_nonempty sep rest)|].
    now rewrite Ascii.eqb_refl.
  - apply includes_char_cons_false in H as [Hx Ha].
    rewrite (IH Ha).
    destruct (Ascii.eqb_spec x sep); [contradiction | reflexivity].
Qed.

(** The first piece is a prefix of the string. *)
Lemma split_head_prefix (sep : ascii) (s : string) :
  forall h t, JsString.split sep s = h :: t -> exists r, s = (h ++ r)%string.
Proof.
  induction s as [|c s IH]; intros h t; cbn [JsString.split].
  - intros [= <- <-]. now exists ""%string.
  - destruct (JsString.split sep s) as [|h' t'] eqn:E;
      [now destruct (split_nonempty sep s)|].
    destruct (IH h' t' eq_refl) as [r Hr].
    destruct (Ascii.eqb c sep); intros [= <- <-].
    + now exists (String c s).
    + exists r. cbn [append]. now rewrite <- Hr.
Qed.

(** Every piece of a split is a part of the string that was split. *)
Lemma split_pieces (sep : ascii) (p s x : string) :
  In x (JsString.split sep s) -> JsString.includes p x = true ->
  JsString.includes p s = true.
Proof.
  revert x. induction s as [|c s IH]; intros x; cbn [JsString.split].
  - intros [<-|[]]. auto.
  - destruct (JsString.split sep s) as [|h t] eqn:E;
      [now destruct (split_nonempty sep s)|].
    destruct (split_head_prefix sep s h t E) as [r Hr].
    destruct (Ascii.eqb c sep).
    + intros [<-|Hin] Hx.
      * destruct p; [apply includes_nil_l | discriminate].
      * apply includes_cons, (IH x Hin Hx).
    + intros [<-|Hin] Hx.
      * rewrite Hr. change (String c (h ++ r)) with (String c h ++ r)%string.
        now apply includes_app_r.
      * apply includes_cons, (IH x); [now right | exact Hx].
Qed.

Lemma issue_number_of_absent (tags : string) :
  JsString.includes "GitHub Issue #" tags = false ->
  issue_number_of tags = None.
Proof.
  intros H. unfold issue_number_of.
  destruct (find _ _) as [x|] eqn:E; [|reflexivity].
  apply find_some in E as [Hin Hx].
  rewrite (split_pieces ";" _ tags x Hin Hx) in H. discriminate.
Qed.

(** X11: A work item whose tag field does not hold [GitHub Issue #] is skipped
    by the reverse pass: [updateIssue] resolves to [null] after the one
    fetch of the work item, without any call to the origin issue service. *)
Theorem updateIssue_skips_untagged makeMarkdown config id
        (S : Type) (h : Handler S) (s : S) wiObj tags :
  truthy_opt (Config.github_token config) = true ->
  fst (h _ (client_getWorkItem id wi_fields None) s) = inr (Some wiObj) ->
  WorkItem.Tags wiObj = Some tags ->
  JsString.includes "GitHub Issue #" tags = false ->
  out (exec h (updateIssue makeMarkdown config id) s) = Resolved None
  /\ existsb is_origin_call
       (trace (exec h (updateIssue makeMarkdown config id) s)) = false.
Proof.
  intros Htok Hget Htags Hno. unfold updateIssue, await.
  rewrite Htok. cbn [bind exec out trace]. rewrite Hget.
  cbn [bind need exec out trace]. rewrite Htags. cbn [bind need].
  rewrite (issue_number_of_absent tags Hno). now split.
Qed.

Lemma updateIssue_skips_untagged_witness :
  out (exec World.handle (updateIssue Sample.makeMarkdown Sample.scheduled 8)
         Sample.world_untagged) = Resolved None
  /\ existsb is_origin_call
       (trace (exec World.handle
                 (updateIssue Sample.makeMarkdown Sample.scheduled 8)
                 Sample.world_untagged)) = false.
Proof.
  apply (updateIssue_skips_untagged Sample.makeMarkdown Sample.scheduled 8
           World.t World.handle Sample.world_untagged Sample.item8
           "GitHub Repo: acme/widgets;triage;"); reflexivity.
Defined.


Lemma uint_no_char (c : ascii) (d : Decimal.uint) :
  is_digit c = false ->
  JsString.includes (String c "") (NilEmpty.string_of_uint d) = false.
Proof.
  intros Hc. induction d; cbn [NilEmpty.string_of_uint];
    [reflexivity | ..];
    (apply includes_char_cons_false; split; [|exact IHd]);
    intros <-; discriminate.
Qed.

(** The decimal text of an integer holds digits and at most a sign. *)
Lemma of_Z_no_char (c : ascii) (n : Z) :
  is_digit c = false -> c <> "-"%char ->
  JsString.includes (String c "") (JsString.of_Z n) = false.
Proof.
  intros Hc Hm. unfold JsString.of_Z, NilZero.string_of_int.
  assert (Hu : forall d, JsString.includes (String c "")
                           (NilZero.string_of_uint d) = false).
  { intros d. destruct d; cbn [NilZero.string_of_uint];
      try apply (uint_no_char c _ Hc).
    apply includes_char_cons_false. split; [|reflexivity].
    intros <-. discriminate. }
  destruct (Z.to_int n) as [d|d]; [apply Hu|].
  apply includes_char_cons_false. split; [|apply Hu].
  intros <-. now destruct Hm.
Qed.

Lemma createLabels_label_tags (seed : string) (labels : list Label.t) :
  createLabels seed (Some labels) = (seed ++ label_tags labels)%string.
Proof.
  revert seed. induction labels as [|l ls IH]; intros seed;
    cbn [createLabels fold_left label_tags fold_right].
  - now rewrite append_nil_r.
  - change (fold_left _ ls ?x) with (createLabels x (Some ls)).
    rewrite IH. unfold label_tag, createLabels. cbn [fold_left].
    now rewrite !append_assoc.
Qed.

Lemma label_tags_includes (l : Label.t) (labels : list Label.t) :
  In l labels ->
  JsString.includes (label_tag l) (label_tags labels) = true.
Proof.
  induction labels as [|x ls IH]; intros Hin; [contradiction|].
  cbn [label_tags fold_right]. fold (label_tags ls).
  destruct Hin as [->|Hin].
  - apply includes_prefix, prefix_append.
  - destruct (includes_inv _ _ (IH Hin)) as (a & b & ->).
    rewrite <- append_assoc. apply includes_append.
Qed.

(** X12: The tag string written at creation is the issue tag, the repository
    tag and then the tag of every label in the order of the issue; the tag
    of each label of the issue is in it, in the very form that unlabel
    subtracts. *)
Theorem create_tags_labels config issue labels :
  Issue.labels issue = Some labels ->
  create_tags config issue
  = ("GitHub Issue #" ++ JsString.of_Z (Issue.number issue) ++ ";"
     ++ "GitHub Repo: " ++ Repository.full_name (Config.repository config)
     ++ ";" ++ label_tags labels)%string
  /\ forall l, In l labels ->
               JsString.includes (label_tag l) (create_tags config issue)
               = true.
Proof.
  intros Hl. unfold create_tags. rewrite Hl, createLabels_label_tags.
  assert (E : (("GitHub Issue #" ++ JsString.of_Z (Issue.number issue)
                ++ ";GitHub Repo: "
                ++ Repository.full_name (Config.repository config) ++ ";")
               ++ label_tags labels)%string
              = ("GitHub Issue #" ++ JsString.of_Z (Issue.number issue) ++ ";"
                 ++ "GitHub Repo: "
                 ++ Repository.full_name (Config.repository config)
                 ++ ";" ++ label_tags labels)%string) by str_norm.
  rewrite E. split; [reflexivity|].
  intros l Hin.
  destruct (includes_inv _ _ (label_tags_includes l labels Hin))
    as (a & b & ->).
  replace ("GitHub Issue #" ++ JsString.of_Z (Issue.number issue) ++ ";"
           ++ "GitHub Repo: "
           ++ Repository.full_name (Config.repository config)
           ++ ";" ++ a ++ label_tag l ++ b)%string
    with (("GitHub Issue #" ++ JsString.of_Z (Issue.number issue) ++ ";"
           ++ "GitHub Repo: "
           ++ Repository.full_name (Config.repository config)
           ++ ";" ++ a) ++ label_tag l ++ b)%string
    by str_norm.
  apply includes_append.
Qed.

Lemma create_tags_labels_witness :
  JsString.includes (label_tag Sample.bug)
    (create_tags Sample.opened42 Sample.issue42) = true.
Proof.
  apply (proj2 (create_tags_labels Sample.opened42 Sample.issue42
                  [Sample.bug] eq_refl)).
  now left.
Defined.

(** X13: The tags the locator asks for are in the tag string that creation
    writes: the create patch document adds [create_tags] to the tag field,
    and every query of [getWorkItem], for the same configuration, requires
    two tags that are both substrings of it. *)
Theorem create_tags_located makeHtml config issue :
  Config.issue config = Some issue ->
  In (add_str f_Tags (create_tags config issue))
     (createWorkItem_patchDoc makeHtml config issue)
  /\ forall (S : Type) (h : Handler S) (s : S),
       Forall (on_call (queries_tags_of (create_tags config issue)))
         (trace (exec h (getWorkItem config false) s)).
Proof.
  intros Hi. split.
  - unfold createWorkItem_patchDoc, create_tags. apply in_or_app. left.
    cbn [In]. auto 6.
  - intros S h s. apply AllCalls_trace.
    unfold getWorkItem, getConnection, query_workItems. rewrite Hi.
    cbn [need bind]. calls; try exact I.
    unfold queries_tags_of, create_tags.
    destruct (createLabels_seed
                ("GitHub Issue #" ++ JsString.of_Z (Issue.number issue)
                 ++ ";GitHub Repo: "
                 ++ Repository.full_name (Config.repository config) ++ ";")
                (Issue.labels issue)) as [rest ->].
    split.
    + replace (("GitHub Issue #" ++ JsString.of_Z (Issue.number issue)
                ++ ";GitHub Repo: "
                ++ Repository.full_name (Config.repository config) ++ ";")
               ++ rest)%string
        with (("GitHub Issue #" ++ JsString.of_Z (Issue.number issue))
              ++ (";GitHub Repo: "
                  ++ Repository.full_name (Config.repository config) ++ ";"
                  ++ rest))%string
        by str_norm.
      apply includes_prefix, prefix_append.
    + replace (("GitHub Issue #" ++ JsString.of_Z (Issue.number issue)
                ++ ";GitHub Repo: "
                ++ Repository.full_name (Config.repository config) ++ ";")
               ++ rest)%string
        with (("GitHub Issue #" ++ JsString.of_Z (Issue.number issue) ++ ";")
              ++ ("GitHub Repo: "
                  ++ Repository.full_name (Config.repository config))
              ++ (";" ++ rest))%string
        by str_norm.
      apply includes_append.
Qed.

Lemma create_tags_located_witness :
  In (add_str f_Tags (create_tags Sample.opened42 Sample.issue42))
     (createWorkItem_patchDoc Sample.makeHtml Sample.opened42 Sample.issue42).
Proof.
  exact (proj1 (create_tags_located Sample.makeHtml Sample.opened42
                  Sample.issue42 eq_refl)).
Defined.

(** X14: The issue number written at creation is the one the reverse pass
    reads back: parsing the tag string of the create patch document gives
    the decimal text of the issue number, whatever the repository name and
    the labels are. *)
Theorem issue_number_roundtrip config issue :
  issue_number_of (create_tags config issue)
  = Some (JsString.of_Z (Issue.number issue)).
Proof.
  unfold create_tags.
  destruct (createLabels_seed
              ("GitHub Issue #" ++ JsString.of_Z (Issue.number issue)
               ++ ";GitHub Repo: "
               ++ Repository.full_name (Config.repository config) ++ ";")
              (Issue.labels issue)) as [rest ->].
  set (N := JsString.of_Z (Issue.number issue)).
  assert (Hsemi : JsString.includes ";" ("GitHub Issue #" ++ N) = false).
  { apply includes_char_app. split; [reflexivity|].
    apply of_Z_no_char; [reflexivity | discriminate]. }
  assert (Hhash : JsString.includes "#" N = false)
    by (apply of_Z_no_char; [reflexivity | discriminate]).
  replace (("GitHub Issue #" ++ N ++ ";GitHub Repo: "
            ++ Repository.full_name (Config.repository config) ++ ";")
           ++ rest)%string
    with (("GitHub Issue #" ++ N)
          ++ String ";" ("GitHub Repo: "
                         ++ Repository.full_name (Config.repository config)
                         ++ ";" ++ rest))%string
    by str_norm.
  unfold issue_number_of. rewrite (split_first ";" _ _ Hsemi).
  cbn [find]. rewrite (includes_prefix _ _ (prefix_append "GitHub Issue #" N)).
  change ("GitHub Issue #" ++ N)%string
    with ("GitHub Issue " ++ String "#" N)%string.
  rewrite (split_first "#" "GitHub Issue " N eq_refl),
    (split_whole "#" N Hhash).
  reflexivity.
Qed.


(** ** String subtraction *)

Lemma replace_absent (pat by_ s : string) :
  JsString.includes pat s = false -> JsString.replace pat by_ s = s.
Proof.
  induction s as [|c s IH]; cbn [JsString.includes JsString.replace];
    intros H; apply orb_false_iff in H as [Hp Hs]; rewrite Hp.
  - reflexivity.
  - now rewrite (IH Hs).
Qed.

Lemma replace_miss (x c : ascii) (p by_ s : string) :
  x <> c ->
  JsString.replace (String x p) by_ (String c s)
  = String c (JsString.replace (String x p) by_ s).
Proof.
  intros H. cbn [JsString.replace].
  destruct (prefix (String x p) (String c s)) eqn:E; [|reflexivity].
  apply prefix_cons in E as [E _]. contradiction.
Qed.

Lemma replace_hit (pat by_ s : string) :
  JsString.replace pat by_ (pat ++ s) = (by_ ++ s)%string.
Proof.
  destruct (pat ++ s)%string eqn:E; cbn [JsString.replace]; rewrite <- E;
    now rewrite prefix_append, drop_append.
Qed.

(** X15: [cleanUrl] leaves a URL without [api.github.com/repos/] as it is, and
    turns the API address of anything under a repository into its web
    address. *)
Theorem cleanUrl_api_to_web :
  (forall url,
      JsString.includes "api.github.com/repos/" url = false ->
      cleanUrl url = url)
  /\ (forall rest,
         cleanUrl ("https://api.github.com/repos/" ++ rest)
         = ("https://github.com/" ++ rest)%string).
Proof.
  split.
  - intros url H. now apply replace_absent.
  - intros rest. unfold cleanUrl.
    change ("https://api.github.com/repos/" ++ rest)%string
      with ("https://" ++ "api.github.com/repos/" ++ rest)%string.
    set (tail := ("api.github.com/repos/" ++ rest)%string).
    cbn [append]. rewrite !replace_miss by discriminate.
    subst tail. now rewrite replace_hit.
Qed.

Lemma cleanUrl_api_to_web_witness :
  cleanUrl "https://github.com/octocat" = "https://github.com/octocat"%string.
Proof.
  apply (proj1 cleanUrl_api_to_web). reflexivity.
Defined.

(** A match of [rest;] at the head of [body ++ z] that ends inside [body]
    puts the delimiter in [body]. *)
Lemma prefix_short (rest body z : string) :
  prefix (rest ++ ";") (body ++ z) = true ->
  (String.length rest < String.length body)%nat ->
  has_delimiter body = true.
Proof.
  revert body. induction rest as [|x rest IH]; intros body H Hlen;
    (destruct body as [|c body]; [cbn in Hlen; lia|]);
    cbn [append] in H; apply prefix_cons in H as [<- H];
    apply has_delimiter_cons.
  - now left.
  - right. apply IH; [exact H | cbn in Hlen; lia].
Qed.

Lemma replace_first_occurrence (body pre post : string) :
  has_delimiter body = false ->
  JsString.includes (body ++ ";") pre = false ->
  JsString.replace (body ++ ";") "" (pre ++ (body ++ ";") ++ post)
  = (pre ++ post)%string.
Proof.
  intros Hb. induction pre as [|c pre IH]; intros Hp.
  - cbn [append]. apply replace_hit.
  - cbn [JsString.includes] in Hp. apply orb_false_iff in Hp as [Hc Hp].
    cbn [append JsString.replace].
    destruct (prefix (body ++ ";")
                (String c (pre ++ (body ++ ";") ++ post))) eqn:E.
    + exfalso.
      change (String c (pre ++ (body ++ ";") ++ post))
        with (String c pre ++ ((body ++ ";") ++ post))%string in E.
      apply prefix_across in E as [E|(rest & E1 & E2)]; [congruence|].
      rewrite append_assoc in E2.
      rewrite (prefix_short rest body (";" ++ post) E2) in Hb;
        [discriminate|].
      rewrite E1, length_append. cbn [String.length]. lia.
    + now rewrite IH.
Qed.

(** X16: Unlabel removes the first occurrence of the tag of the label and
    nothing else: for a label name without [;], and tags [pre] before that
    occurrence that do not hold the tag, the tag field [pre ++ tag ++ post]
    becomes [pre ++ post]. *)
Theorem unlabel_removes_first_tag (pre post : string) (label : Label.t) :
  has_delimiter (JsString.of_opt (Label.name label)) = false ->
  JsString.includes (label_tag label) pre = false ->
  unlabeled_tags (pre ++ label_tag label ++ post) label = (pre ++ post)%string.
Proof.
  intros Hn Hp. unfold unlabeled_tags. fold (label_tag label).
  rewrite label_tag_eq in *.
  apply replace_first_occurrence;
    [now apply has_delimiter_label_body | exact Hp].
Qed.

Lemma unlabel_removes_first_tag_witness :
  unlabeled_tags
    "GitHub Issue #42;GitHub Repo: acme/widgets;GitHub Label: bug;GitHub Label: ui;"
    Sample.bug
  = "GitHub Issue #42;GitHub Repo: acme/widgets;GitHub Label: ui;"%string.
Proof.
  apply (unlabel_removes_first_tag
           "GitHub Issue #42;GitHub Repo: acme/widgets;" "GitHub Label: ui;"
           Sample.bug); reflexivity.
Defined.

(** X17: Unlabel of a label whose tag is not in the tag field computes the tag
    field unchanged. *)
Theorem unlabel_absent_tag (tags : string) (label : Label.t) :
  JsString.includes (label_tag label) tags = false ->
  unlabeled_tags tags label = tags.
Proof. intros H. unfold unlabeled_tags. now apply replace_absent. Qed.

Lemma unlabel_absent_tag_witness :
  unlabeled_tags "GitHub Issue #42;GitHub Repo: acme/widgets;GitHub Label: ui;"
    Sample.bug
  = "GitHub Issue #42;GitHub Repo: acme/widgets;GitHub Label: ui;"%string.
Proof.
  apply (unlabel_absent_tag
           "GitHub Issue #42;GitHub Repo: acme/widgets;GitHub Label: ui;"
           Sample.bug).
  reflexivity.
Defined.


(** ** Assignees *)



Lemma Obj_get_set (k v k' : string) (o : Obj.t) :
  Obj.get k' (Obj.set k v o)
  = if (k =? k')%string then Some v else Obj.get k' o.
Proof.
  induction o as [|[k0 v0] o IH]; cbn [Obj.set Obj.get]; [reflexivity|].
  destruct (String.eqb_spec k0 k) as [->|Hk0]; cbn [Obj.get].
  - destruct (String.eqb_spec k k'); reflexivity.
  - rewrite IH. destruct (String.eqb_spec k0 k') as [->|]; [|reflexivity].
    destruct (String.eqb_spec k k'); [congruence | reflexivity].
Qed.

Lemma Obj_get_entry (o : Obj.t) :
  NoDup (Obj.keys o) ->
  forall k v, In (k, v) o -> Obj.get k o = Some v.
Proof.
  induction o as [|[k0 v0] o IH]; intros Hnd k v Hin; [contradiction|].
  cbn [Obj.keys map fst] in Hnd. inversion Hnd as [|? ? Hk0 Hnd']; subst.
  cbn [Obj.get]. destruct Hin as [[= -> ->]|Hin].
  - now rewrite String.eqb_refl.
  - destruct (String.eqb_spec k0 k) as [->|]; [|now apply IH].
    destruct Hk0. apply (in_map fst) in Hin. exact Hin.
Qed.

Lemma flip_pairs (o l : Obj.t) (acc : Obj.t) :
  (forall kv, In kv l -> Obj.get (fst kv) o = Some (snd kv)) ->
  fold_left
    (fun ret key => Obj.set (JsString.of_opt (Obj.get key o)) key ret)
    (Obj.keys l) acc
  = fold_left (fun ret kv => Obj.set (snd kv) (fst kv) ret) l acc.
Proof.
  revert acc. induction l as [|kv l IH]; intros acc H; [reflexivity|].
  cbn [Obj.keys map fold_left]. rewrite (H kv (or_introl eq_refl)).
  cbn [JsString.of_opt]. apply IH. intros kv' Hin. apply H. now right.
Qed.

Lemma flip_lookup (v : string) (l acc : Obj.t) :
  Obj.get v (fold_left (fun ret kv => Obj.set (snd kv) (fst kv) ret) l acc)
  = fold_left
      (fun a kv => if (snd kv =? v)%string then Some (fst kv) else a)
      l (Obj.get v acc).
Proof.
  revert acc. induction l as [|kv l IH]; intros acc; [reflexivity|].
  cbn [fold_left]. now rewrite IH, Obj_get_set.
Qed.

Lemma Obj_get_In (k v : string) (o : Obj.t) :
  Obj.get k o = Some v -> In (k, v) o.
Proof.
  induction o as [|[k0 v0] o IH]; cbn [Obj.get]; [discriminate|].
  destruct (String.eqb_spec k0 k) as [->|_].
  - intros [= ->]. now left.
  - intros H. right. now apply IH.
Qed.

Lemma last_key_fold (v : string) (l : Obj.t) (acc : option string) :
  (fold_left (fun a kv => if (snd kv =? v)%string then Some (fst kv) else a)
             l acc = acc
   /\ forall k, ~ In (k, v) l)
  \/ exists k,
       fold_left (fun a kv => if (snd kv =? v)%string then Some (fst kv) else a)
                 l acc = Some k
       /\ In (k, v) l.
Proof.
  revert acc. induction l as [|[k0 v0] l IH]; intros acc; cbn [fold_left].
  - left. split; [reflexivity | intros k []].
  - cbn [fst snd].
    destruct (IH (if (v0 =? v)%string then Some k0 else acc))
      as [[E Hnone]|(k & E & Hin)].
    + destruct (String.eqb_spec v0 v) as [->|Hne].
      * right. exists k0. split; [exact E | now left].
      * left. split; [exact E|].
        intros k [[= _ Hv]|Hin]; [contradiction | exact (Hnone k Hin)].
    + right. exists k. split; [exact E | now right].
Qed.

Lemma objectFlip_get (o : Obj.t) (v : string) :
  NoDup (Obj.keys o) ->
  Obj.get v (objectFlip o) = last_key_of v o.
Proof.
  intros Hnd. unfold objectFlip, last_key_of.
  rewrite (flip_pairs o o []).
  - now rewrite flip_lookup.
  - intros [k x] Hin. now apply Obj_get_entry.
Qed.



(** X20: The reverse assignee of a work item, when there is one, is a handle
    that the table maps to the lower-cased principal name of the work
    item, letter for letter: the names in the table are not lower-cased. *)
Theorem candidate_assignee_sound config wiObj handles gh :
  Ado.handles (Config.ado config) = Some handles ->
  NoDup (Obj.keys handles) ->
  candidate_assignee config wiObj = Some gh ->
  exists a,
    WorkItem.AssignedTo wiObj = Some a
    /\ Obj.get gh handles = Some (JsString.toLowerCase a).
Proof.
  intros Hh Hnd. unfold candidate_assignee. rewrite Hh.
  destruct (WorkItem.AssignedTo wiObj) as [a|]; [|discriminate].
  destruct (JsString.truthy a); [|discriminate].
  rewrite (objectFlip_get handles (JsString.toLowerCase a) Hnd).
  unfold last_key_of.
  destruct (last_key_fold (JsString.toLowerCase a) handles None)
    as [[E _]|(k & E & Hin)]; rewrite E; [discriminate|].
  intros [= <-]. exists a. split; [reflexivity|].
  now apply Obj_get_entry.
Qed.

Lemma candidate_assignee_sound_witness :
  exists a,
    WorkItem.AssignedTo Sample.item7_assigned = Some a
    /\ Obj.get "hubot" Sample.handles = Some (JsString.toLowerCase a).
Proof.
  apply (candidate_assignee_sound Sample.assigned42 Sample.item7_assigned
           Sample.handles "hubot").
  - reflexivity.
  - repeat constructor; cbn; intuition discriminate.
  - reflexivity.
Defined.

(** X21: The two handle mappings undo each other: when the handle of the
    issue's assignee is the only one mapped to a principal name, and that
    name is non-empty and in lower case, the forward mapping gives the
    name, and the reverse mapping of a work item assigned to that name, in
    any letter case, gives the handle back. *)
Theorem handle_roundtrip config issue u handles p wiObj a :
  Config.issue config = Some issue ->
  Issue.assignee issue = Some u ->
  Ado.handles (Config.ado config) = Some handles ->
  NoDup (Obj.keys handles) ->
  Obj.get (User.login u) handles = Some p ->
  p <> ""%string ->
  (forall k, Obj.get k handles = Some p -> k = User.login u) ->
  WorkItem.AssignedTo wiObj = Some a ->
  JsString.toLowerCase a = p ->
  getAssignee config false = Some p
  /\ candidate_assignee config wiObj = Some (User.login u).
Proof.
  intros Hi Hu Hh Hnd Hp Hne Huniq Ha Hlow. split.
  - unfold getAssignee. rewrite Hi, Hu, Hh, Hp.
    assert (E : truthy_opt (Some p) = true).
    { cbn [truthy_opt]. unfold JsString.truthy.
      destruct (String.eqb_spec p ""); [contradiction | reflexivity]. }
    now rewrite !E.
  - unfold candidate_assignee. rewrite Hh, Ha.
    assert (Et : JsString.truthy a = true).
    { unfold JsString.truthy. destruct (String.eqb_spec a "") as [->|];
        [|reflexivity].
      cbn in Hlow. now destruct Hne. }
    rewrite Et, Hlow, (objectFlip_get handles p Hnd).
    unfold last_key_of.
    destruct (last_key_fold p handles None) as [[_ Hnone]|(k & E & Hin)].
    + destruct (Hnone (User.login u)). now apply Obj_get_In.
    + rewrite E. f_equal. apply Huniq. now apply Obj_get_entry.
Qed.

Lemma handle_roundtrip_witness :
  getAssignee Sample.assigned42 false = Some "hubot@acme.example"%string
  /\ candidate_assignee Sample.assigned42 Sample.item7_assigned
     = Some "hubot"%string.
Proof.
  apply (handle_roundtrip Sample.assigned42 Sample.issue42_assigned
           Sample.hubot Sample.handles "hubot@acme.example"
           Sample.item7_assigned "Hubot@Acme.Example"); try reflexivity.
  - repeat constructor; cbn; intuition discriminate.
  - discriminate.
  - intros k. unfold Sample.handles, Obj.get.
    destruct (String.eqb_spec "octocat" k); [discriminate|].
    destruct (String.eqb_spec "hubot" k); [now intros _ | discriminate].
Defined.


(** ** States *)

Lemma In_keys_get (k : string) (o : Obj.t) :
  In k (Obj.keys o) -> Obj.get k o <> None.
Proof.
  induction o as [|[k0 v0] o IH]; cbn [Obj.keys map fst Obj.get];
    [contradiction|].
  destruct (String.eqb_spec k0 k); [discriminate|].
  intros [H|H]; [contradiction | now apply IH].
Qed.

Lemma deriveStateKey_key (states : Obj.t) (x : option string) (k : string) :
  deriveStateKey states x = Some k -> In k (Obj.keys states).
Proof. unfold deriveStateKey. intros H. now apply find_some in H. Qed.

(** X22: The reverse state lookup gives nothing exactly when no key of the
    table holds the mirror state, and it gives nothing for a work item
    without a state. *)
Theorem deriveStateKey_unmapped (states : Obj.t) (v : string) :
  (deriveStateKey states (Some v) = None
   <-> forall k, Obj.get k states <> Some v)
  /\ deriveStateKey states None = None.
Proof.
  split; [split|].
  - intros H k Hk. unfold deriveStateKey in H.
    pose proof (find_none _ _ H k (Obj_get_In_keys k v states Hk)) as E.
    cbv beta in E. rewrite Hk, String.eqb_refl in E. discriminate.
  - intros H. destruct (deriveStateKey states (Some v)) as [k|] eqn:E;
      [|reflexivity].
    now destruct (H k (deriveStateKey_first states v k E)).
  - destruct (deriveStateKey states None) as [k|] eqn:E; [|reflexivity].
    pose proof (In_keys_get k states (deriveStateKey_key states None k E)) as Hk.
    unfold deriveStateKey in E. apply find_some in E as [_ E].
    destruct (Obj.get k states); [discriminate | now destruct Hk].
Qed.

(** X23: The origin service knows the states [open] and [closed]; the lookup
    gives a key of the table.  So where the table has no key [open], the
    candidate state of a work item is never the state of an open issue,
    and every work item fresher than its open issue gets an update sent to
    the issue, however equal the other values are. *)
Theorem open_issue_always_updated makeMarkdown config id
        (S : Type) (h : Handler S) (s : S) wiObj n issue :
  reconciles h s config id wiObj n issue ->
  fresher wiObj issue = true ->
  Obj.get "open" (Ado.states (Config.ado config)) = None ->
  Issue.state issue = "open"%string ->
  differs makeMarkdown config wiObj issue = true
  /\ existsb is_origin_update
       (trace (exec h (updateIssue makeMarkdown config id) s)) = true.
Proof.
  intros Hr Hf Hopen Hst.
  assert (Hd : differs makeMarkdown config wiObj issue = true).
  { unfold differs. rewrite Hst.
    assert (E : opt_eqb (candidate_state config wiObj) (Some "open"%string)
                = false).
    { unfold candidate_state.
      destruct (deriveStateKey _ _) as [k|] eqn:E; [|reflexivity].
      cbn [opt_eqb]. destruct (String.eqb_spec k "open") as [->|];
        [|reflexivity].
      now destruct (In_keys_get _ _ (deriveStateKey_key _ _ _ E)). }
    rewrite E. cbn [negb]. now rewrite orb_true_r, orb_true_l. }
  split; [exact Hd|].
  rewrite (updateIssue_writes makeMarkdown config id S h s wiObj n issue Hr),
    Hf, Hd.
  reflexivity.
Qed.

Lemma open_issue_always_updated_witness :
  WorkItem.Title Sample.item7_open = Some (Issue.title Sample.issue42)
  /\ Some (candidate_body Sample.makeMarkdown Sample.item7_open)
     = Issue.body Sample.issue42
  /\ existsb is_origin_update
       (trace (exec World.handle
                 (updateIssue Sample.makeMarkdown Sample.scheduled 7)
                 Sample.world_open)) = true.
Proof.
  split; [reflexivity|]. split; [reflexivity|].
  apply (open_issue_always_updated Sample.makeMarkdown Sample.scheduled 7
           World.t World.handle Sample.world_open Sample.item7_open "42"
           Sample.issue42); try reflexivity.
  repeat split; try reflexivity. eexists. split; reflexivity.
Defined.

(** ** Which events write which field *)

(** X24: Of the ten events only create, label and unlabel have an operation on
    the tag field, and only close, reopen and delete have one on the state
    field; each has exactly one, and create sets no state. *)
Theorem patchDoc_tag_and_state_ops makeHtml e config issue label comment tags :
  filter (on_path f_Tags)
    (patchDoc_of makeHtml e config issue label comment tags)
  = match e with
    | Create => [add_str f_Tags (create_tags config issue)]
    | Labeled => [add_str f_Tags (label_tag label)]
    | Unlabeled => [replace_str f_Tags (unlabeled_tags tags label)]
    | _ => []
    end
  /\ filter (on_path f_State)
       (patchDoc_of makeHtml e config issue label comment tags)
     = match e with
       | Close =>
           [add_opt f_State (Obj.get "closed" (Ado.states (Config.ado config)))]
       | Reopen =>
           [add_opt f_State
              (Obj.get "reopened" (Ado.states (Config.ado config)))]
       | Delete =>
           [add_opt f_State (Obj.get "deleted" (Ado.states (Config.ado config)))]
       | _ => []
       end.
Proof.
  destruct e; cbn [patchDoc_of];
    unfold createWorkItem_patchDoc, closeWorkItem_patchDoc,
      reopenWorkItem_patchDoc, deleteWorkItem_patchDoc, editWorkItem_patchDoc,
      labelWorkItem_patchDoc, unlabelWorkItem_patchDoc,
      assignWorkItem_patchDoc, unassignWorkItem_patchDoc, addComment_patchDoc;
    rewrite ?filter_app;
    repeat match goal with
           | |- context [if ?b then [_] else []] => destruct b
           | |- context [if ?b then [_] else [_]] => destruct b
           end;
    (split;
     cbn [filter app on_path path add_str add_opt replace_str remove_op];
     eval_eqb; reflexivity).
Qed.


(** ** The batch of the reverse pass *)

Lemma forEach_detached_resolves A B (f : A -> Prog B) (l : list A)
      (S : Type) (h : Handler S) :
  forall s, out (exec h (forEach_detached f l) s) = Resolved tt.
Proof.
  induction l as [|a l IH]; intros s; cbn [forEach_detached];
    [reflexivity|].
  rewrite exec_bind.
  destruct (try_catch_resolves S unit h (f a ;;; Ret tt) (fun _ => tt) s)
    as [[] E].
  rewrite E. cbn [out]. apply IH.
Qed.

Lemma updateIssue_no_setFailed makeMarkdown config id :
  AllCalls quiet (updateIssue makeMarkdown config id).
Proof. unfold updateIssue. calls; exact I. Qed.

(** X25: [updateIssues] never rejects: it resolves to [-1] exactly when it has
    marked the action failed, which it does when the connection or the
    query fails, and to nothing otherwise, whatever becomes of the single
    work items. *)
Theorem updateIssues_error_iff_failed makeMarkdown config
        (S : Type) (h : Handler S) (s : S) :
  (out (exec h (updateIssues makeMarkdown config) s) = Resolved v_minus_one
   <-> existsb is_setFailed
         (trace (exec h (updateIssues makeMarkdown config) s)) = true)
  /\ (out (exec h (updateIssues makeMarkdown config) s) = Resolved v_minus_one
      \/ out (exec h (updateIssues makeMarkdown config) s) = Resolved Null).
Proof.
  assert (Hloop : forall l s',
             out (exec h (forEach_detached (updateIssue makeMarkdown config) l
                          ;;; Ret Null) s') = Resolved Null
             /\ existsb is_setFailed
                  (trace (exec h (forEach_detached
                                    (updateIssue makeMarkdown config) l
                                  ;;; Ret Null) s')) = false).
  { intros l s'. rewrite exec_bind, forEach_detached_resolves.
    cbn [exec out trace]. rewrite app_nil_r. split; [reflexivity|].
    apply (AllCalls_existsb quiet).
    - apply forEach_detached_calls. intros id.
      apply updateIssue_no_setFailed.
    - intros [X c x]. destruct c; simpl; tauto. }
  unfold updateIssues, getConnection, query_workItems, v_minus_one.
  cbn [exec out trace]. destruct (fst (h _ _ s)) as [e|[]].
  - cbn [exec bind perform out trace existsb is_setFailed orb].
    split; [tauto | now left].
  - cbn [await bind try_catch exec out trace existsb is_setFailed orb].
    destruct (fst (h _ (queryByWiql _ _) _)) as [e|[workItems|]];
      cbn [bind try_catch perform exec out trace existsb is_setFailed orb];
      try (split; [tauto | now left]).
    destruct (Hloop workItems
                (snd (h _ (queryByWiql
                             (RecentOfRepo (Ado.wit (Config.ado config))
                                ("GitHub Repo: "
                                 ++ Config.GITHUB_REPOSITORY config))
                             (Ado.project (Config.ado config)))
                        (snd (h _ (getWorkItemTrackingApi
                                     (Ado.orgUrl (Config.ado config))
                                     (Ado.token (Config.ado config))) s)))))
      as [Ho Ht].
    rewrite Ho, Ht. split; [|now right].
    split; discriminate.
Qed.


(** ** Auto-creation against the reference model *)

Lemma fresh_id_above (l : list WorkItem.t) (x : WorkItem.t) :
  In x l -> WorkItem.id x < World.fresh_id l.
Proof.
  unfold World.fresh_id. induction l as [|a l IH]; intros H; [contradiction|].
  cbn [fold_right]. destruct H as [->|H]; [lia|].
  specialize (IH H). lia.
Qed.

Lemma lookup_appended (l : list WorkItem.t) (x : WorkItem.t) :
  WorkItem.id x = World.fresh_id l ->
  World.lookup (WorkItem.id x) (l ++ [x]) = Some x.
Proof.
  intros Hx. unfold World.lookup. rewrite Hx.
  assert (H : forall l', (forall a, In a l' -> WorkItem.id a < World.fresh_id l) ->
                         find (fun w => WorkItem.id w =? World.fresh_id l)
                              (l' ++ [x])%list = Some x).
  { induction l' as [|a l' IH]; intros Hl; cbn [app find].
    - now rewrite Hx, Z.eqb_refl.
    - pose proof (Hl a (or_introl eq_refl)) as Ha.
      destruct (Z.eqb_spec (WorkItem.id a) (World.fresh_id l)); [lia|].
      apply IH. intros b Hb. apply Hl. now right. }
  apply H. intros a. apply fresh_id_above.
Qed.

Lemma store_appended (l : list WorkItem.t) (x x' : WorkItem.t) :
  WorkItem.id x = World.fresh_id l -> WorkItem.id x' = WorkItem.id x ->
  World.store x' (l ++ [x]) = (l ++ [x'])%list.
Proof.
  intros Hx Hx'.
  assert (H : forall l', (forall a, In a l' -> WorkItem.id a < World.fresh_id l) ->
                         World.store x' (l' ++ [x]) = (l' ++ [x'])%list).
  { induction l' as [|a l' IH]; intros Hl; cbn [app World.store].
    - now rewrite Hx', Z.eqb_refl.
    - pose proof (Hl a (or_introl eq_refl)) as Ha.
      destruct (Z.eqb_spec (WorkItem.id a) (WorkItem.id x')); [lia|].
      f_equal. apply IH. intros b Hb. apply Hl. now right. }
  apply H. intros a. apply fresh_id_above.
Qed.

Lemma created_item_id makeHtml config issue w :
  WorkItem.id (created_item makeHtml config issue w)
  = World.fresh_id (World.items w).
Proof.
  unfold created_item. cbn [World.touch WorkItem.id].
  now destruct (apply_patch_kind (createWorkItem_patchDoc makeHtml config issue)
                  (World.blank (World.fresh_id (World.items w))
                     (Ado.project (Config.ado config))
                     (Ado.wit (Config.ado config)))) as (_ & _ & ->).
Qed.

(** X26: With [autoCreate] on and no counterpart of the issue, against the
    reference model of the mirror service, [updateWorkItem] creates one
    work item from the create patch document and applies the patch
    document of the event to that very item: the service ends with one
    more work item, the created one as patched, which is also the result. *)
Theorem updateWorkItem_autoCreate makeHtml config issue patchDoc (w : World.t) :
  healthy w ->
  Config.issue config = Some issue ->
  Ado.autoCreate (Config.ado config) = true ->
  World.counterparts config issue w = [] ->
  out (exec World.handle (updateWorkItem makeHtml config patchDoc) w)
  = Resolved
      (Item (World.touch (World.now w)
               (World.apply_patch patchDoc
                  (created_item makeHtml config issue w))))
  /\ World.items
       (final (exec World.handle (updateWorkItem makeHtml config patchDoc) w))
     = (World.items w
        ++ [World.touch (World.now w)
              (World.apply_patch patchDoc
                 (created_item makeHtml config issue w))])%list.
Proof.
  intros Hw Hi Ha Hc.
  destruct (getWorkItem_world config issue w Hw Hi) as [Hf Ho].
  rewrite Hc in Ho. destruct Hw as (Hcd & Hq & Hfd).
  pose proof (created_item_id makeHtml config issue w) as Hid.
  set (x := created_item makeHtml config issue w) in *.
  set (x' := World.touch (World.now w) (World.apply_patch patchDoc x)).
  assert (Hid' : WorkItem.id x' = WorkItem.id x).
  { subst x'. cbn [World.touch WorkItem.id].
    now destruct (apply_patch_kind patchDoc x) as (_ & _ & ->). }
  unfold updateWorkItem. rewrite exec_bind, Ho, Hf, Ha.
  cbn [truthy negb]. unfold createWorkItem.
  cbn [getWorkItem bind truthy]. rewrite Hi. cbn [need bind].
  unfold submit_update, await, getConnection, perform.
  cbn [bind try_catch exec World.handle fst snd out final trace].
  rewrite Hcd.
  cbn [bind try_catch exec World.handle fst snd out final trace
       World.with_items World.connection_down World.items World.now id_of].
  rewrite Hcd.
  cbn [bind try_catch exec World.handle fst snd out final trace id_of
       World.with_items World.connection_down World.items World.now].
  change (World.touch (World.now w)
            (World.apply_patch (createWorkItem_patchDoc makeHtml config issue)
               (World.blank (World.fresh_id (World.items w))
                  (Ado.project (Config.ado config))
                  (Ado.wit (Config.ado config))))) with x.
  rewrite (lookup_appended (World.items w) x Hid).
  cbn [bind try_catch need exec World.handle fst snd out final trace
       World.with_items World.items].
  fold x'. rewrite (store_appended (World.items w) x x' Hid Hid').
  now split.
Qed.

Lemma updateWorkItem_autoCreate_witness :
  map WorkItem.State
    (World.items
       (final (exec World.handle
                 (updateWorkItem Sample.makeHtml Sample.closed42_autoCreate
                    (closeWorkItem_patchDoc Sample.closed42_autoCreate
                       Sample.issue42_closed))
                 Sample.world_empty)))
  = [Some "Done"%string].
Proof.
  rewrite (proj2 (updateWorkItem_autoCreate Sample.makeHtml
                    Sample.closed42_autoCreate Sample.issue42_closed
                    (closeWorkItem_patchDoc Sample.closed42_autoCreate
                       Sample.issue42_closed)
                    Sample.world_empty
                    ltac:(repeat split) eq_refl eq_refl eq_refl)).
  reflexivity.
Defined.


Lemma deriveStateKey_unmapped_witness :
  deriveStateKey (Ado.states Sample.settings) (Some "Blocked"%string) = None.
Proof.
  apply (proj1 (deriveStateKey_unmapped (Ado.states Sample.settings)
                  "Blocked")).
  intros k. unfold Sample.settings, Ado.states, Obj.get.
  destruct (String.eqb_spec "closed" k); [discriminate|].
  destruct (String.eqb_spec "reopened" k); [discriminate|].
  destruct (String.eqb_spec "deleted" k); discriminate.
Defined.
